(** * Photo gallery app: pagination and screen navigation of [App.tsx]

    A shallow embedding of the state machine of
    [src/photo-gallery-app/App.tsx]: the [useState] cells of [App], the
    callbacks that write them, and the platform calls they await.

    How the code is read.
    - Every [useState] cell of [App] is a field of [AppState]; the object
      returned by [useCameraPermissions] is one more field, and the cells
      of [CameraScreen], which exist while it is mounted, are another.
    - A callback is the list of operations it performs, in source order, up
      to its next [await] on a platform call: setter calls, [Alert.alert],
      and the call it suspends on together with the code that follows the
      [await] (a continuation, [Kont]).  The operations of one such segment
      are committed together, as React batches the setter calls made in one
      turn of the event loop; [states_along] gives the setter-by-setter
      view where a statement needs it.
    - A callback fired by the user is the one of the latest render: the
      values it closes over are the committed state.  What a continuation
      still needs from its closure after the [await] ([selectedAsset] in
      share and delete) travels with the continuation.
    - The platform answers outstanding calls in any order ([settle]). *)

From Stdlib Require Import List String Bool Arith Lia.
Import ListNotations.
Open Scope string_scope.
Open Scope list_scope.

Set Implicit Arguments.

(** ** Platform types *)

(** [Platform.OS] *)
Inductive OS := ios | android | windows | macos | web.

Definition OS_eqb (a b : OS) : bool :=
  match a, b with
  | ios, ios | android, android | windows, windows | macos, macos | web, web => true
  | _, _ => false
  end.

Module MediaLibrary.

(** [MediaLibrary.Asset]: the two fields the application reads. *)
Record Asset := { id : string; uri : string }.

(** [MediaLibrary.PagedInfo<Asset>]; [endCursor] is read through
    [result.endCursor ?? null]. *)
Record PagedInfo := {
  assets : list Asset;
  endCursor : option string;
  hasNextPage : bool
}.

Inductive PermissionStatus := status_granted | status_denied | status_undetermined.

(** [PermissionResponse]: [status] and [granted]. *)
Record PermissionResponse := { status : PermissionStatus; granted : bool }.

Definition status_eqb (a b : PermissionStatus) : bool :=
  match a, b with
  | status_granted, status_granted
  | status_denied, status_denied
  | status_undetermined, status_undetermined => true
  | _, _ => false
  end.

End MediaLibrary.

Abbreviation Asset := MediaLibrary.Asset.
Abbreviation PagedInfo := MediaLibrary.PagedInfo.
Abbreviation PermissionResponse := MediaLibrary.PermissionResponse.

Definition Asset_eq_dec (a b : Asset) : {a = b} + {a <> b}.
Proof. decide equality; apply string_dec. Defined.

(** ** Application state *)

Inductive ScreenName := gallery | camera | viewer.

(** [facing] of [CameraScreen] *)
Inductive Facing := back | front.

(** The cells of one mounted [CameraScreen]: its two [useState] cells and
    the object its [useCameraPermissions] returns.  [instance] tells the
    mounts apart: code that outlives the component it was started by
    writes to no other one. *)
Record CameraScreenState := mkCamera {
  instance : nat;
  isSaving : bool;
  facing : Facing;
  permission : option PermissionResponse
}.

(** The [CameraScreen] now mounted, if any, and how many were mounted. *)
Record CameraSlot := mkSlot {
  mounted : option CameraScreenState;
  created : nat
}.

Record AppState := mkState {
  hasMediaPermission : option bool;
  assets : list Asset;
  endCursor : option string;
  hasNextPage : bool;
  isLoadingAssets : bool;
  screen : ScreenName;
  selectedAsset : option Asset;
  cameraPermission : option PermissionResponse;
  cameraScreen : CameraSlot
}.

(** The initial values of the [useState] cells. *)
Definition initialState : AppState :=
  mkState None [] None true false gallery None None (mkSlot None 0).

(** [cameraPermission?.granted], as a condition. *)
Definition granted_opt (p : option PermissionResponse) : bool :=
  match p with
  | Some r => MediaLibrary.granted r
  | None => false
  end.

(** ** Platform calls and the code that awaits them *)

Inductive Call :=
| getPermissionsAsync
| requestPermissionsAsync
| getAssetsAsync (first : nat) (after : option string)
| deleteAssetsAsync (ids : list string)
| requestCameraPermission
| isAvailableAsync
| shareAsync (url : string)
| takePictureAsync
| saveToLibraryAsync (localUri : string).

(** Who awaits the end of [loadInitialAssets]: nobody with code of its own
    ([useEffect], the Refresh button), or [onShotSaved], which then returns
    to the gallery, awaited in turn by the [onTakeShot] of one
    [CameraScreen]. *)
Inductive Then := then_nothing | then_onShotSaved (caller : nat).

(** One constructor per [await] on a platform call. *)
Inductive Kont :=
| k_mount_getPermissions
| k_mount_requestPermissions
| k_loadInitialAssets (t : Then)
| k_loadMoreAssets
| k_openCamera
| k_onShareSelected_isAvailable (selected : Asset)
| k_onShareSelected_share
| k_onDeleteSelected (selected : Asset)
| k_onTakeShot_takePicture (caller : nat)
| k_onTakeShot_save (caller : nat)
| k_CameraScreen_requestPermission (caller : nat).

Inductive Op :=
| setHasMediaPermission (v : bool)
| setAssets (v : list Asset)
| setAssets_prev (f : list Asset -> list Asset)
| setEndCursor (v : option string)
| setHasNextPage (v : bool)
| setIsLoadingAssets (v : bool)
| setScreen (v : ScreenName)
| setSelectedAsset (v : option Asset)
| hook_cameraPermission (v : PermissionResponse)
| setIsSaving (i : nat) (v : bool)
| setFacing_prev (i : nat) (f : Facing -> Facing)
| hook_permission (i : nat) (v : PermissionResponse)
| Alert_alert (title message : string)
| await (c : Call) (k : Kont).

(** The application together with what it has shown and asked for. *)
Record World := mkWorld {
  os : OS;
  state : AppState;
  alerts : list (string * string);
  calls : list Call;
  inflight : list (Call * Kont)
}.

Definition with_state (f : AppState -> AppState) (w : World) : World :=
  mkWorld (os w) (f (state w)) (alerts w) (calls w) (inflight w).

Definition with_cameraScreen (slot : CameraSlot) (s : AppState) : AppState :=
  mkState (hasMediaPermission s) (assets s) (endCursor s) (hasNextPage s)
    (isLoadingAssets s) (screen s) (selectedAsset s) (cameraPermission s) slot.

(** A write to a cell of the [CameraScreen] mounted as number [i]: lost
    if that one is no longer mounted. *)
Definition update_slot (i : nat) (f : CameraScreenState -> CameraScreenState)
    (slot : CameraSlot) : CameraSlot :=
  match mounted slot with
  | Some cs =>
      if Nat.eqb (instance cs) i then mkSlot (Some (f cs)) (created slot) else slot
  | None => slot
  end.

Definition update_CameraScreen (i : nat)
    (f : CameraScreenState -> CameraScreenState) (s : AppState) : AppState :=
  with_cameraScreen (update_slot i f (cameraScreen s)) s.

Definition apply_setter (o : Op) (s : AppState) : AppState :=
  match o with
  | setHasMediaPermission v =>
      mkState (Some v) (assets s) (endCursor s) (hasNextPage s)
        (isLoadingAssets s) (screen s) (selectedAsset s) (cameraPermission s)
        (cameraScreen s)
  | setAssets v =>
      mkState (hasMediaPermission s) v (endCursor s) (hasNextPage s)
        (isLoadingAssets s) (screen s) (selectedAsset s) (cameraPermission s)
        (cameraScreen s)
  | setAssets_prev f =>
      mkState (hasMediaPermission s) (f (assets s)) (endCursor s) (hasNextPage s)
        (isLoadingAssets s) (screen s) (selectedAsset s) (cameraPermission s)
        (cameraScreen s)
  | setEndCursor v =>
      mkState (hasMediaPermission s) (assets s) v (hasNextPage s)
        (isLoadingAssets s) (screen s) (selectedAsset s) (cameraPermission s)
        (cameraScreen s)
  | setHasNextPage v =>
      mkState (hasMediaPermission s) (assets s) (endCursor s) v
        (isLoadingAssets s) (screen s) (selectedAsset s) (cameraPermission s)
        (cameraScreen s)
  | setIsLoadingAssets v =>
      mkState (hasMediaPermission s) (assets s) (endCursor s) (hasNextPage s)
        v (screen s) (selectedAsset s) (cameraPermission s)
        (cameraScreen s)
  | setScreen v =>
      mkState (hasMediaPermission s) (assets s) (endCursor s) (hasNextPage s)
        (isLoadingAssets s) v (selectedAsset s) (cameraPermission s)
        (cameraScreen s)
  | setSelectedAsset v =>
      mkState (hasMediaPermission s) (assets s) (endCursor s) (hasNextPage s)
        (isLoadingAssets s) (screen s) v (cameraPermission s)
        (cameraScreen s)
  | hook_cameraPermission v =>
      mkState (hasMediaPermission s) (assets s) (endCursor s) (hasNextPage s)
        (isLoadingAssets s) (screen s) (selectedAsset s) (Some v)
        (cameraScreen s)
  | setIsSaving i v =>
      update_CameraScreen i
        (fun cs => mkCamera (instance cs) v (facing cs) (permission cs)) s
  | setFacing_prev i f =>
      update_CameraScreen i
        (fun cs => mkCamera (instance cs) (isSaving cs) (f (facing cs)) (permission cs)) s
  | hook_permission i v =>
      update_CameraScreen i
        (fun cs => mkCamera (instance cs) (isSaving cs) (facing cs) (Some v)) s
  | Alert_alert _ _ => s
  | await _ _ => s
  end.

Definition exec1 (w : World) (o : Op) : World :=
  match o with
  | Alert_alert t m =>
      mkWorld (os w) (state w) (alerts w ++ [(t, m)]) (calls w) (inflight w)
  | await c k =>
      mkWorld (os w) (state w) (alerts w) (calls w ++ [c]) (inflight w ++ [(c, k)])
  | _ => with_state (apply_setter o) w
  end.

Definition exec (ops : list Op) (w : World) : World := fold_left exec1 ops w.

(** The worlds passed through while [ops] run one by one. *)
Fixpoint states_along (ops : list Op) (w : World) : list World :=
  match ops with
  | [] => []
  | o :: rest => exec1 w o :: states_along rest (exec1 w o)
  end.

(** ** Outcomes of platform calls *)

Inductive Outcome (A : Type) :=
| fulfilled (a : A)
| rejected.
Arguments rejected {A}.

(** [try { body } catch { handler } finally { fin }] around one awaited
    call whose body performs no further await. *)
Definition try_catch_finally {A} (r : Outcome A)
    (body : A -> list Op) (handler fin : list Op) : list Op :=
  match r with
  | fulfilled a => body a
  | rejected => handler
  end ++ fin.

(** [try { body } catch { handler }] *)
Definition try_catch {A} (r : Outcome A)
    (body : A -> list Op) (handler : list Op) : list Op :=
  try_catch_finally r body handler [].

(** What a platform call can settle with. *)
Inductive Reply :=
| reply_page (r : Outcome PagedInfo)
| reply_permission (r : Outcome PermissionResponse)
| reply_bool (r : Outcome bool)
| reply_void (r : Outcome unit)
| reply_photo (r : Outcome (option string)).

(** ** The callbacks of [App] *)

(** [loadInitialAssets], up to its [await]. *)
Definition loadInitialAssets (t : Then) : list Op :=
  [ setIsLoadingAssets true;
    await (getAssetsAsync 60 None) (k_loadInitialAssets t) ].

(** What the callers of [loadInitialAssets] do once it has returned:
    [onShotSaved] runs [setScreen('gallery')], then [onTakeShot] reaches
    its [finally]. *)
Definition after_load (t : Then) : list Op :=
  match t with
  | then_nothing => []
  | then_onShotSaved caller => [ setScreen gallery; setIsSaving caller false ]
  end.

(** [loadInitialAssets], from its [await] on. *)
Definition loadInitialAssets_resume (t : Then) (r : Outcome PagedInfo) : list Op :=
  try_catch_finally r
    (fun result =>
       [ setAssets (MediaLibrary.assets result);
         setEndCursor (MediaLibrary.endCursor result);
         setHasNextPage (MediaLibrary.hasNextPage result) ])
    [ Alert_alert "Error" "Failed to load photos." ]
    [ setIsLoadingAssets false ]
  ++ after_load t.

(** [loadMoreAssets], up to its [await]; [s] is what the callback closes
    over. *)
Definition loadMoreAssets (s : AppState) : list Op :=
  if negb (hasNextPage s) || isLoadingAssets s then []
  else
    [ setIsLoadingAssets true;
      await (getAssetsAsync 60 (endCursor s)) k_loadMoreAssets ].

Definition loadMoreAssets_resume (r : Outcome PagedInfo) : list Op :=
  try_catch_finally r
    (fun result =>
       [ setAssets_prev (fun prev => prev ++ MediaLibrary.assets result);
         setEndCursor (MediaLibrary.endCursor result);
         setHasNextPage (MediaLibrary.hasNextPage result) ])
    [ Alert_alert "Error" "Failed to load more photos." ]
    [ setIsLoadingAssets false ].

(** [refreshAssets] *)
Definition refreshAssets (t : Then) : list Op :=
  [ setEndCursor None; setHasNextPage true ] ++ loadInitialAssets t.

(** [openCamera] *)
Definition openCamera (platform : OS) (s : AppState) : list Op :=
  if OS_eqb platform web then
    [ Alert_alert "Not supported" "Camera is not supported on web in this demo." ]
  else if negb (granted_opt (cameraPermission s)) then
    [ await requestCameraPermission k_openCamera ]
  else
    [ setScreen camera ].

(** [openCamera] after [await requestCameraPermission()]: the hook stores
    the response it hands back; the call is outside any [try], so a
    rejection ends the callback. *)
Definition openCamera_resume (r : Outcome PermissionResponse) : list Op :=
  match r with
  | fulfilled res =>
      hook_cameraPermission res ::
      (if negb (MediaLibrary.granted res) then
         [ Alert_alert "Permission required" "Camera access is needed to take photos." ]
       else
         [ setScreen camera ])
  | rejected => []
  end.

(** [onSelectAsset] *)
Definition onSelectAsset (asset : Asset) : list Op :=
  [ setSelectedAsset (Some asset); setScreen viewer ].

(** [onShareSelected] *)
Definition onShareSelected (s : AppState) : list Op :=
  match selectedAsset s with
  | None => []
  | Some selected => [ await isAvailableAsync (k_onShareSelected_isAvailable selected) ]
  end.

Definition share_failed : list Op :=
  [ Alert_alert "Share failed" "Unable to share this photo." ].

Definition onShareSelected_resume_isAvailable (selected : Asset) (r : Outcome bool)
  : list Op :=
  try_catch r
    (fun available =>
       if negb available then
         [ Alert_alert "Unavailable" "Sharing is not available on this platform." ]
       else
         [ await (shareAsync (MediaLibrary.uri selected)) k_onShareSelected_share ])
    share_failed.

Definition onShareSelected_resume_share (r : Outcome unit) : list Op :=
  try_catch r (fun _ => []) share_failed.

(** [onDeleteSelected] *)
Definition onDeleteSelected (s : AppState) : list Op :=
  match selectedAsset s with
  | None => []
  | Some selected =>
      [ await (deleteAssetsAsync [MediaLibrary.id selected]) (k_onDeleteSelected selected) ]
  end.

(** [a.id !== selectedAsset.id] *)
Definition id_differs (selected a : Asset) : bool :=
  negb (String.eqb (MediaLibrary.id a) (MediaLibrary.id selected)).

Definition onDeleteSelected_resume (selected : Asset) (r : Outcome unit) : list Op :=
  try_catch r
    (fun _ =>
       [ setAssets_prev (filter (id_differs selected));
         setSelectedAsset None;
         setScreen gallery ])
    [ Alert_alert "Delete failed" "Unable to delete this photo." ].

(** The Back button of the viewer. *)
Definition onViewerBack : list Op :=
  [ setSelectedAsset None; setScreen gallery ].

(** The [onClose] prop handed to [CameraScreen]. *)
Definition onClose : list Op := [ setScreen gallery ].

(** The [onShotSaved] prop handed to [CameraScreen]:
    [await refreshAssets(); setScreen('gallery')], called by the
    [onTakeShot] of the [CameraScreen] number [caller]. *)
Definition onShotSaved (caller : nat) : list Op :=
  refreshAssets (then_onShotSaved caller).

(** The mount effect of [App], up to its first [await]. *)
Definition mountEffect : list Op :=
  [ await getPermissionsAsync k_mount_getPermissions ].

Definition mountEffect_resume_get (r : Outcome PermissionResponse) : list Op :=
  match r with
  | fulfilled current =>
      if negb (MediaLibrary.status_eqb (MediaLibrary.status current)
                 MediaLibrary.status_granted) then
        [ await requestPermissionsAsync k_mount_requestPermissions ]
      else
        [ setHasMediaPermission true ]
  | rejected => []
  end.

Definition mountEffect_resume_request (r : Outcome PermissionResponse) : list Op :=
  match r with
  | fulfilled result => [ setHasMediaPermission (MediaLibrary.granted result) ]
  | rejected => []
  end.

(** [useEffect(..., [hasMediaPermission, loadInitialAssets])]:
    [loadInitialAssets] never changes, so the effect runs after the commit
    that changed [hasMediaPermission], and loads when it is [true]. *)
Definition permissionEffect (before after : AppState) : list Op :=
  match hasMediaPermission before, hasMediaPermission after with
  | None, Some true | Some false, Some true => loadInitialAssets then_nothing
  | _, _ => []
  end.

(** ** [CameraScreen]

    [useCameraPermissions] is library code: it is taken to hand a
    [CameraScreen], when it mounts, the permission response the
    application last received, and from then on the responses to that
    component's own requests. *)

(** The three [return]s of [CameraScreen]. *)
Inductive CameraView := camera_unsupported | camera_needsPermission | camera_live.

Definition render_CameraScreen (platform : OS) (cs : CameraScreenState) : CameraView :=
  if OS_eqb platform web then camera_unsupported
  else if negb (granted_opt (permission cs)) then camera_needsPermission
  else camera_live.

(** [cameraRef.current]: set while [CameraView] is rendered. *)
Definition cameraRef_current (platform : OS) (cs : CameraScreenState) : bool :=
  match render_CameraScreen platform cs with
  | camera_live => true
  | _ => false
  end.

(** [photo?.uri], as a condition. *)
Definition has_uri (photo_uri : option string) : bool :=
  match photo_uri with
  | None | Some EmptyString => false
  | Some _ => true
  end.

Definition take_failed : list Op :=
  [ Alert_alert "Error" "Failed to take photo." ].

(** [onTakeShot], up to its first [await]; the [return] on a missing
    camera is inside the [try], so the [finally] runs. *)
Definition onTakeShot (platform : OS) (cs : CameraScreenState) : list Op :=
  if isSaving cs then []
  else if negb (cameraRef_current platform cs) then
    [ setIsSaving (instance cs) false ]
  else
    [ await takePictureAsync (k_onTakeShot_takePicture (instance cs)) ].

(** [onTakeShot] after [await camera.takePictureAsync()]; [photo_uri] is
    [photo?.uri]. *)
Definition onTakeShot_resume_takePicture (caller : nat) (r : Outcome (option string))
  : list Op :=
  match r with
  | fulfilled photo_uri =>
      if negb (has_uri photo_uri) then [ setIsSaving caller false ]
      else
        match photo_uri with
        | Some uri =>
            [ setIsSaving caller true;
              await (saveToLibraryAsync uri) (k_onTakeShot_save caller) ]
        | None => [ setIsSaving caller false ]
        end
  | rejected => take_failed ++ [ setIsSaving caller false ]
  end.

(** [onTakeShot] after [await MediaLibrary.saveToLibraryAsync(photo.uri)]:
    [await onShotSaved()], whose end brings the [finally]. *)
Definition onTakeShot_resume_save (caller : nat) (r : Outcome unit) : list Op :=
  match r with
  | fulfilled _ => onShotSaved caller
  | rejected => take_failed ++ [ setIsSaving caller false ]
  end.

(** [requestPermission] of [CameraScreen]'s hook, as its effect and its
    Grant button call it: nothing follows the call but the hook's own
    update. *)
Definition requestPermission (caller : nat) : list Op :=
  [ await requestCameraPermission (k_CameraScreen_requestPermission caller) ].

Definition requestPermission_resume (caller : nat) (r : Outcome PermissionResponse)
  : list Op :=
  match r with
  | fulfilled res => [ hook_permission caller res ]
  | rejected => []
  end.

(** The effect of [CameraScreen], on [permission]. *)
Definition cameraScreenEffect (cs : CameraScreenState) : list Op :=
  if negb (granted_opt (permission cs)) then requestPermission (instance cs)
  else [].

(** The flip button. *)
Definition onFlip (cs : CameraScreenState) : list Op :=
  [ setFacing_prev (instance cs)
      (fun prev => match prev with back => front | front => back end) ].

(** ** Rendering: which controls are on screen *)

Inductive View :=
| view_checking
| view_permissionNeeded
| view_gallery (flatList : bool)
| view_camera
| view_viewer (shown : Asset)
| view_blank.

(** The [return] of [App]: the two early returns, then the three
    [screen === ...] blocks; the viewer block also asks for
    [selectedAsset]. *)
Definition render (s : AppState) : View :=
  match hasMediaPermission s with
  | None => view_checking
  | Some false => view_permissionNeeded
  | Some true =>
      match screen s with
      | gallery =>
          view_gallery
            (negb (Nat.eqb (List.length (assets s)) 0 && negb (isLoadingAssets s)))
      | camera => view_camera
      | viewer =>
          match selectedAsset s with
          | Some a => view_viewer a
          | None => view_blank
          end
      end
  end.

(** ** Events *)

Inductive Event :=
| pressRefresh
| pressCamera
| endReached
| pressThumbnail (item : Asset)
| pressBack
| pressShare
| pressDelete
| cameraClose
| pressCapture
| pressFlip
| pressGrant
| settle (i : nat) (r : Reply).

(** The callback a control of [CameraScreen] runs: the capture and flip
    buttons are on its live block, Grant on its permission block. *)
Definition camera_handler (w : World) (e : Event) : option (list Op) :=
  match mounted (cameraScreen (state w)) with
  | Some cs =>
      match e, render_CameraScreen (os w) cs with
      | pressCapture, camera_live => Some (onTakeShot (os w) cs)
      | pressFlip, camera_live => Some (onFlip cs)
      | pressGrant, camera_needsPermission => Some (requestPermission (instance cs))
      | _, _ => None
      end
  | None => None
  end.

(** The callback a control runs, when the control is on screen. *)
Definition handler (w : World) (e : Event) : option (list Op) :=
  match e, render (state w) with
  | pressRefresh, view_gallery _ => Some (refreshAssets then_nothing)
  | pressCamera, view_gallery _ => Some (openCamera (os w) (state w))
  | endReached, view_gallery true => Some (loadMoreAssets (state w))
  | pressThumbnail item, view_gallery true =>
      if in_dec Asset_eq_dec item (assets (state w))
      then Some (onSelectAsset item) else None
  | pressBack, view_viewer _ => Some onViewerBack
  | pressShare, view_viewer _ => Some (onShareSelected (state w))
  | pressDelete, view_viewer _ => Some (onDeleteSelected (state w))
  | cameraClose, view_camera => Some onClose
  | pressCapture, view_camera => camera_handler w e
  | pressFlip, view_camera => camera_handler w e
  | pressGrant, view_camera => camera_handler w e
  | _, _ => None
  end.

(** The code that follows an [await], given what the call settled with. *)
Definition resume (k : Kont) (r : Reply) : option (list Op) :=
  match k, r with
  | k_mount_getPermissions, reply_permission o => Some (mountEffect_resume_get o)
  | k_mount_requestPermissions, reply_permission o => Some (mountEffect_resume_request o)
  | k_loadInitialAssets t, reply_page o => Some (loadInitialAssets_resume t o)
  | k_loadMoreAssets, reply_page o => Some (loadMoreAssets_resume o)
  | k_openCamera, reply_permission o => Some (openCamera_resume o)
  | k_onShareSelected_isAvailable sel, reply_bool o =>
      Some (onShareSelected_resume_isAvailable sel o)
  | k_onShareSelected_share, reply_void o => Some (onShareSelected_resume_share o)
  | k_onDeleteSelected sel, reply_void o => Some (onDeleteSelected_resume sel o)
  | k_onTakeShot_takePicture i, reply_photo o =>
      Some (onTakeShot_resume_takePicture i o)
  | k_onTakeShot_save i, reply_void o => Some (onTakeShot_resume_save i o)
  | k_CameraScreen_requestPermission i, reply_permission o =>
      Some (requestPermission_resume i o)
  | _, _ => None
  end.

(** Whether the camera block of [App] is rendered. *)
Definition cameraScreen_rendered (s : AppState) : bool :=
  match render s with
  | view_camera => true
  | _ => false
  end.

(** A fresh [CameraScreen]: not saving, facing back. *)
Definition mount_CameraScreen (s : AppState) : AppState :=
  with_cameraScreen
    (mkSlot (Some (mkCamera (created (cameraScreen s)) false back (cameraPermission s)))
            (S (created (cameraScreen s))))
    s.

Definition unmount_CameraScreen (s : AppState) : AppState :=
  with_cameraScreen (mkSlot None (created (cameraScreen s))) s.

Definition writes_permission_of (i : nat) (o : Op) : bool :=
  match o with
  | hook_permission j _ => Nat.eqb i j
  | _ => false
  end.

(** The effect of the mounted [CameraScreen], if there is one. *)
Definition run_cameraScreenEffect (w : World) : World :=
  match mounted (cameraScreen (state w)) with
  | Some cs => exec (cameraScreenEffect cs) w
  | None => w
  end.

(** What the render after a segment does to the camera block: mount it
    and run its effect when it comes on screen, drop it when it leaves,
    and run its effect again when its [permission] was written. *)
Definition reconcile (before : AppState) (ops : list Op) (w : World) : World :=
  match cameraScreen_rendered before, cameraScreen_rendered (state w) with
  | false, true => run_cameraScreenEffect (with_state mount_CameraScreen w)
  | true, false => with_state unmount_CameraScreen w
  | true, true =>
      match mounted (cameraScreen (state w)) with
      | Some cs =>
          if existsb (writes_permission_of (instance cs)) ops
          then run_cameraScreenEffect w else w
      | None => w
      end
  | false, false => w
  end.

(** Run one segment and commit it; then the effect on
    [hasMediaPermission]; then the render of the camera block. *)
Definition commit (ops : list Op) (w : World) : World :=
  let w' := exec ops w in
  reconcile (state w) ops (exec (permissionEffect (state w) (state w')) w').

Fixpoint remove_nth {A} (i : nat) (l : list A) : list A :=
  match i, l with
  | _, [] => []
  | O, _ :: rest => rest
  | S j, x :: rest => x :: remove_nth j rest
  end.

Definition answered (i : nat) (w : World) : World :=
  mkWorld (os w) (state w) (alerts w) (calls w) (remove_nth i (inflight w)).

Definition step (e : Event) (w : World) : option World :=
  match e with
  | settle i r =>
      match nth_error (inflight w) i with
      | Some (_, k) =>
          match resume k r with
          | Some ops => Some (commit ops (answered i w))
          | None => None
          end
      | None => None
      end
  | _ =>
      match handler w e with
      | Some ops => Some (commit ops w)
      | None => None
      end
  end.

(** A whole run; [None] as soon as an event is not possible. *)
Fixpoint run (es : list Event) (w : World) : option World :=
  match es with
  | [] => Some w
  | e :: rest =>
      match step e w with
      | Some w' => run rest w'
      | None => None
      end
  end.

(** The application right after mounting on [platform]. *)
Definition init (platform : OS) : World :=
  exec mountEffect (mkWorld platform initialState [] [] []).

Inductive reachable (platform : OS) : World -> Prop :=
| reachable_init : reachable platform (init platform)
| reachable_step w e w' :
    reachable platform w -> step e w = Some w' -> reachable platform w'.

(** ** Sample data: the pages of the specification's scenarios *)

Definition photo (n : string) : Asset :=
  {| MediaLibrary.id := n;
     MediaLibrary.uri := String.append "file:///photos/" (String.append n ".jpg") |}.

Definition page (ids : list string) (cursor : option string) (more : bool) : PagedInfo :=
  {| MediaLibrary.assets := map photo ids;
     MediaLibrary.endCursor := cursor;
     MediaLibrary.hasNextPage := more |}.

Definition page_123 : PagedInfo := page ["1"; "2"; "3"] (Some "c1") true.
Definition page_45 : PagedInfo := page ["4"; "5"] (Some "c2") false.
Definition page_6123 : PagedInfo := page ["6"; "1"; "2"; "3"] (Some "d1") true.

Definition permission_granted : PermissionResponse :=
  {| MediaLibrary.status := MediaLibrary.status_granted; MediaLibrary.granted := true |}.
Definition permission_denied : PermissionResponse :=
  {| MediaLibrary.status := MediaLibrary.status_denied; MediaLibrary.granted := false |}.

(** The world reached by [es] from a fresh mount ([init] itself if [es]
    cannot run). *)
Definition world_after (platform : OS) (es : list Event) : World :=
  match run es (init platform) with
  | Some w => w
  | None => init platform
  end.

(** Media permission is granted: the first load is under way. *)
Definition first_load_started : list Event :=
  [ settle 0 (reply_permission (fulfilled permission_granted)) ].

(** Then the first page [page_123] arrives. *)
Definition first_page_loaded : list Event :=
  first_load_started ++ [ settle 0 (reply_page (fulfilled page_123)) ].

(** Or else: Refresh is pressed during the first load, and the refresh's
    page [page_6123] arrives before the first load's. *)
Definition refreshed_during_first_load : list Event :=
  first_load_started
  ++ [ pressRefresh; settle 1 (reply_page (fulfilled page_6123)) ].

(** Then the list end is reached and [page_45], the last page, arrives. *)
Definition both_pages_loaded : list Event :=
  first_page_loaded ++ [ endReached; settle 0 (reply_page (fulfilled page_45)) ].

(** Then the thumbnail of photo 3 is pressed. *)
Definition photo_3_open : list Event :=
  both_pages_loaded ++ [ pressThumbnail (photo "3") ].

(** Or else: Refresh is pressed during the first load, and the first
    load's page [page_123] arrives before the refresh's. *)
Definition first_page_during_refresh : list Event :=
  first_load_started
  ++ [ pressRefresh; settle 0 (reply_page (fulfilled page_123)) ].

(** Or else, after the first page: Camera is pressed and the permission
    requested is granted, so that the camera is on screen. *)
Definition camera_open : list Event :=
  first_page_loaded
  ++ [ pressCamera; settle 0 (reply_permission (fulfilled permission_granted)) ].

(** The five cells the error-handling and pagination statements speak of. *)
Definition data (s : AppState) :=
  (assets s, endCursor s, hasNextPage s, selectedAsset s, screen s).


(** ** What a segment does, part by part *)

(** The setter calls of a segment, applied to the cells. *)
Definition run_setters (ops : list Op) (s : AppState) : AppState :=
  fold_left (fun s' o => apply_setter o s') ops s.

(** The calls a segment suspends on, with their continuations. *)
Fixpoint awaited (ops : list Op) : list (Call * Kont) :=
  match ops with
  | [] => []
  | await c k :: rest => (c, k) :: awaited rest
  | _ :: rest => awaited rest
  end.

(** The notices a segment raises. *)
Fixpoint alerted (ops : list Op) : list (string * string) :=
  match ops with
  | [] => []
  | Alert_alert t m :: rest => (t, m) :: alerted rest
  | _ :: rest => alerted rest
  end.

(** The camera block after the render that follows a segment, and the
    requests of its effect, as [reconcile] makes them. *)
Definition reconciled_slot (before after : AppState) : CameraSlot :=
  match cameraScreen_rendered before, cameraScreen_rendered after with
  | false, true =>
      mkSlot (Some (mkCamera (created (cameraScreen after)) false back
                      (cameraPermission after)))
             (S (created (cameraScreen after)))
  | true, false => mkSlot None (created (cameraScreen after))
  | _, _ => cameraScreen after
  end.

Definition camera_requests (before : AppState) (ops : list Op) (after : AppState)
  : list (Call * Kont) :=
  match cameraScreen_rendered before, cameraScreen_rendered after with
  | false, true =>
      awaited (cameraScreenEffect
                 (mkCamera (created (cameraScreen after)) false back
                    (cameraPermission after)))
  | true, true =>
      match mounted (cameraScreen after) with
      | Some cs =>
          if existsb (writes_permission_of (instance cs)) ops
          then awaited (cameraScreenEffect cs) else []
      | None => []
      end
  | _, _ => []
  end.

(** ** Kinds of calls and continuations *)

(** The two awaits of the mount effect. *)
Definition is_mount_kont (k : Kont) : bool :=
  match k with
  | k_mount_getPermissions | k_mount_requestPermissions => true
  | _ => false
  end.

(** The awaits on [getAssetsAsync]. *)
Definition is_page_kont (k : Kont) : bool :=
  match k with
  | k_loadInitialAssets _ | k_loadMoreAssets => true
  | _ => false
  end.

(** The awaits of [openCamera] and [onTakeShot]. *)
Definition is_camera_kont (k : Kont) : bool :=
  match k with
  | k_openCamera | k_onTakeShot_takePicture _ | k_onTakeShot_save _
  | k_CameraScreen_requestPermission _ => true
  | _ => false
  end.

Definition is_permission_call (c : Call) : bool :=
  match c with
  | getPermissionsAsync | requestPermissionsAsync => true
  | _ => false
  end.

Definition is_camera_call (c : Call) : bool :=
  match c with
  | requestCameraPermission | takePictureAsync | saveToLibraryAsync _ => true
  | _ => false
  end.

(** Anything the user does, as opposed to an answer of the platform. *)
Definition is_user_event (e : Event) : bool :=
  match e with
  | settle _ _ => false
  | _ => true
  end.

(** The cells once the media permission has been refused. *)
Definition deniedState : AppState :=
  mkState (Some false) [] None true false gallery None None (mkSlot None 0).

(** What the mount effect and the permission screens allow while the
    media permission is not granted. *)
Definition awaiting_permission (w : World) : Prop :=
  forallb is_permission_call (calls w) = true
  /\ ((state w = initialState
       /\ (inflight w = []
           \/ inflight w = [(getPermissionsAsync, k_mount_getPermissions)]
           \/ inflight w = [(requestPermissionsAsync, k_mount_requestPermissions)]))
      \/ (state w = deniedState /\ inflight w = [])).

(** The rule on the media permission: not granted, the application is
    still with its mount effect; granted, the mount effect is over. *)
Definition permission_rule (w : World) : Prop :=
  match hasMediaPermission (state w) with
  | Some true => forallb (fun ck => negb (is_mount_kont (snd ck))) (inflight w) = true
  | _ => awaiting_permission w
  end.

(** An outstanding [getAssetsAsync] with the code that awaits it. *)
Definition is_page_await (ck : Call * Kont) : bool :=
  match fst ck with
  | getAssetsAsync _ _ => is_page_kont (snd ck)
  | _ => false
  end.

(** The rule on the in-flight flag: raised, a page is being awaited. *)
Definition loading_rule (w : World) : Prop :=
  isLoadingAssets (state w) = true ->
  existsb is_page_await (inflight w) = true.

(** The rule of the web: no camera screen, no camera call. *)
Definition web_rule (w : World) : Prop :=
  screen (state w) <> camera
  /\ forallb (fun c => negb (is_camera_call c)) (calls w) = true
  /\ forallb (fun ck => negb (is_camera_kont (snd ck))) (inflight w) = true.

(** A segment raises the flag only together with a page request. *)
Definition raises_flag_with_request (ops : list Op) : Prop :=
  forall s, isLoadingAssets (run_setters ops s) = true ->
            isLoadingAssets s = true
            \/ existsb is_page_await (awaited ops) = true.

(** A segment that neither shows the camera nor calls it. *)
Definition leaves_camera_alone (ops : list Op) : Prop :=
  (forall s, screen (run_setters ops s) = camera -> screen s = camera)
  /\ forallb (fun ck => negb (is_camera_kont (snd ck))) (awaited ops) = true
  /\ forallb (fun c => negb (is_camera_call c)) (map fst (awaited ops)) = true.

(** ** Statements under test

    Sentences of the specification, put as propositions in their own
    words, to be compared with what the callbacks do. *)

(** As the specification words it: when a refresh resets the pagination
    state while an earlier [loadInitial] request is still outstanding, and
    the refresh's own page has arrived, the late answer to the earlier
    request leaves list, cursor and has-more as the refresh produced
    them. *)
Definition stale_responses_are_discarded : Prop :=
  forall platform w w1 w2 w3 i c t fresh stale,
    reachable platform w ->
    nth_error (inflight w) i = Some (c, k_loadInitialAssets t) ->
    step pressRefresh w = Some w1 ->
    step (settle (List.length (inflight w)) (reply_page (fulfilled fresh))) w1 = Some w2 ->
    step (settle i (reply_page (fulfilled stale))) w2 = Some w3 ->
    data (state w3) = data (state w2).




(** As the specification words it: whenever has-more is false or a
    pagination request is in flight, [loadMore] changes nothing and asks
    for nothing. *)
Definition loadMore_is_dropped_while_a_page_is_awaited : Prop :=
  forall platform w,
    reachable platform w ->
    hasNextPage (state w) = false \/ existsb is_page_await (inflight w) = true ->
    commit (loadMoreAssets (state w)) w = w.

(** As the specification words it: on every attempt to open the camera,
    if the camera permission is not already granted it is requested. *)
Definition camera_permission_is_always_requested : Prop :=
  forall platform w w1,
    reachable platform w ->
    granted_opt (cameraPermission (state w)) = false ->
    step pressCamera w = Some w1 ->
    In requestCameraPermission (skipn (List.length (calls w)) (calls w1)).

(** * Proofs *)

Section ListFacts.
Context {A : Type}.

Lemma nth_error_last (l : list A) (x : A) :
  nth_error (l ++ [x]) (List.length l) = Some x.
Proof. induction l; simpl; auto. Qed.

Lemma remove_nth_last (l : list A) (x : A) :
  remove_nth (List.length l) (l ++ [x]) = l.
Proof. induction l; simpl; congruence. Qed.

End ListFacts.

Lemma permissionEffect_same s s' :
  hasMediaPermission s' = hasMediaPermission s -> permissionEffect s s' = [].
Proof.
  unfold permissionEffect; intros ->.
  destruct (hasMediaPermission s) as [[|]|]; reflexivity.
Qed.

Lemma cameraScreen_rendered_eq s :
  cameraScreen_rendered s
  = match hasMediaPermission s, screen s with
    | Some true, camera => true
    | _, _ => false
    end.
Proof.
  unfold cameraScreen_rendered, render.
  destruct (hasMediaPermission s) as [[|]|]; auto.
  destruct (screen s); auto. destruct (selectedAsset s); auto.
Qed.

(** A segment that leaves the media permission, the screen and the
    permission of [CameraScreen] alone is just executed. *)
Lemma commit_exec ops w :
  hasMediaPermission (state (exec ops w)) = hasMediaPermission (state w) ->
  screen (state (exec ops w)) = screen (state w) ->
  (forall i, existsb (writes_permission_of i) ops = false) ->
  commit ops w = exec ops w.
Proof.
  intros Hperm Hscr Hhook; unfold commit; cbv zeta.
  rewrite (permissionEffect_same _ _ Hperm); cbn [exec fold_left].
  unfold reconcile. rewrite !cameraScreen_rendered_eq, Hperm, Hscr.
  destruct (hasMediaPermission (state w)) as [[|]|]; auto.
  destruct (screen (state w)); auto.
  destruct (mounted (cameraScreen (state (exec ops w)))); auto.
  rewrite Hhook. reflexivity.
Qed.

Lemma commit_nil w : commit [] w = w.
Proof. apply commit_exec; reflexivity. Qed.

Lemma permissionEffect_cases s s' :
  permissionEffect s s' = [] \/ permissionEffect s s' = loadInitialAssets then_nothing.
Proof.
  unfold permissionEffect.
  destruct (hasMediaPermission s) as [[|]|], (hasMediaPermission s') as [[|]|]; auto.
Qed.

Lemma exec_parts ops : forall w,
  exec ops w
  = mkWorld (os w) (run_setters ops (state w)) (alerts w ++ alerted ops)
      (calls w ++ map fst (awaited ops)) (inflight w ++ awaited ops).
Proof.
  unfold exec, run_setters.
  induction ops as [|o ops IH]; intros w; simpl.
  - rewrite !app_nil_r. destruct w; reflexivity.
  - rewrite IH. destruct o; simpl; rewrite <- ?app_assoc; reflexivity.
Qed.

Lemma with_cameraScreen_same s : with_cameraScreen (cameraScreen s) s = s.
Proof. destruct s; reflexivity. Qed.

(** The render of the camera block, part by part. *)
Lemma reconcile_parts before ops w :
  reconcile before ops w
  = mkWorld (os w)
      (with_cameraScreen (reconciled_slot before (state w)) (state w))
      (alerts w)
      (calls w ++ map fst (camera_requests before ops (state w)))
      (inflight w ++ camera_requests before ops (state w)).
Proof.
  assert (Heff : forall cs, alerted (cameraScreenEffect cs) = []
                            /\ forall s0, run_setters (cameraScreenEffect cs) s0 = s0)
    by (intros cs; unfold cameraScreenEffect; destruct (negb _); split; reflexivity).
  unfold reconcile, reconciled_slot, camera_requests, run_cameraScreenEffect.
  destruct w as [p s al cl infl]; cbn [state os alerts calls inflight].
  destruct (cameraScreen_rendered before), (cameraScreen_rendered s);
    cbn [with_state state os alerts calls inflight mount_CameraScreen
         unmount_CameraScreen with_cameraScreen cameraScreen mounted].
  - destruct (mounted (cameraScreen s)) as [cs|] eqn:Hm.
    + destruct (existsb (writes_permission_of (instance cs)) ops).
      * rewrite exec_parts; cbn [state os alerts calls inflight].
        destruct (Heff cs) as (-> & ->).
        rewrite with_cameraScreen_same, app_nil_r. reflexivity.
      * rewrite with_cameraScreen_same, !app_nil_r. reflexivity.
    + rewrite with_cameraScreen_same, !app_nil_r. reflexivity.
  - rewrite !app_nil_r. reflexivity.
  - rewrite exec_parts;
      cbn [with_state state os alerts calls inflight mount_CameraScreen
           with_cameraScreen cameraScreen mounted].
    set (cs := mkCamera _ _ _ _).
    destruct (Heff cs) as (-> & ->). rewrite app_nil_r. reflexivity.
  - rewrite with_cameraScreen_same, !app_nil_r. reflexivity.
Qed.

(** The whole of a commit, part by part. *)
Lemma commit_parts_full ops w :
  commit ops w
  = mkWorld (os w)
      (with_cameraScreen
         (reconciled_slot (state w)
            (run_setters (permissionEffect (state w) (run_setters ops (state w)))
               (run_setters ops (state w))))
         (run_setters (permissionEffect (state w) (run_setters ops (state w)))
            (run_setters ops (state w))))
      (alerts w ++ alerted ops)
      (calls w
       ++ map fst (awaited ops)
       ++ map fst (awaited (permissionEffect (state w) (run_setters ops (state w))))
       ++ map fst
            (camera_requests (state w) ops
               (run_setters (permissionEffect (state w) (run_setters ops (state w)))
                  (run_setters ops (state w)))))
      (inflight w
       ++ awaited ops
       ++ awaited (permissionEffect (state w) (run_setters ops (state w)))
       ++ camera_requests (state w) ops
            (run_setters (permissionEffect (state w) (run_setters ops (state w)))
               (run_setters ops (state w)))).
Proof.
  unfold commit; cbv zeta.
  rewrite reconcile_parts, !exec_parts; cbn [state os alerts calls inflight].
  assert (Hal : alerted (permissionEffect (state w) (run_setters ops (state w))) = [])
    by (destruct (permissionEffect_cases (state w) (run_setters ops (state w)))
          as [-> | ->]; reflexivity).
  rewrite Hal, app_nil_r, <- !app_assoc. reflexivity.
Qed.

Lemma camera_requests_cases before ops after :
  camera_requests before ops after = []
  \/ (cameraScreen_rendered after = true
      /\ exists i,
           camera_requests before ops after
           = [(requestCameraPermission, k_CameraScreen_requestPermission i)]).
Proof.
  unfold camera_requests, cameraScreenEffect, requestPermission.
  destruct (cameraScreen_rendered before), (cameraScreen_rendered after); auto.
  - destruct (mounted (cameraScreen after)) as [cs|]; auto.
    destruct (existsb _ ops); auto.
    destruct (negb _); simpl; eauto.
  - destruct (negb _); simpl; eauto.
Qed.

(** A commit that leaves the media permission alone. *)
Lemma commit_keeping_permission ops w :
  (forall s, hasMediaPermission (run_setters ops s) = hasMediaPermission s) ->
  exists slot requests,
    commit ops w
    = mkWorld (os w) (with_cameraScreen slot (run_setters ops (state w)))
        (alerts w ++ alerted ops)
        (calls w ++ map fst (awaited ops) ++ map fst requests)
        (inflight w ++ awaited ops ++ requests)
    /\ (requests = []
        \/ (cameraScreen_rendered (run_setters ops (state w)) = true
            /\ exists i,
                 requests
                 = [(requestCameraPermission, k_CameraScreen_requestPermission i)])).
Proof.
  intros Hsame. rewrite commit_parts_full.
  rewrite permissionEffect_same by apply Hsame.
  cbn [run_setters fold_left awaited map app].
  eexists; eexists; split; [reflexivity|].
  apply camera_requests_cases.
Qed.

Lemma camera_requests_off before ops after :
  screen after <> camera -> camera_requests before ops after = [].
Proof.
  intros Hscr; unfold camera_requests; rewrite (cameraScreen_rendered_eq after).
  destruct (hasMediaPermission after) as [[|]|];
    destruct (cameraScreen_rendered before); auto.
  all: destruct (screen after); auto; contradiction.
Qed.

Lemma camera_requests_granted before ops after :
  granted_opt (cameraPermission after) = true ->
  (forall i, existsb (writes_permission_of i) ops = false) ->
  camera_requests before ops after = [].
Proof.
  intros Hg Hhook; unfold camera_requests, cameraScreenEffect; cbn [permission].
  rewrite Hg; cbn [negb].
  destruct (cameraScreen_rendered before), (cameraScreen_rendered after); auto.
  destruct (mounted (cameraScreen after)); auto. rewrite Hhook; reflexivity.
Qed.

(** A segment that leaves the media permission, the screen and the
    permission of [CameraScreen] alone, part by part. *)
Lemma commit_parts ops w :
  hasMediaPermission (run_setters ops (state w)) = hasMediaPermission (state w) ->
  screen (run_setters ops (state w)) = screen (state w) ->
  (forall i, existsb (writes_permission_of i) ops = false) ->
  commit ops w
  = mkWorld (os w) (run_setters ops (state w)) (alerts w ++ alerted ops)
      (calls w ++ map fst (awaited ops)) (inflight w ++ awaited ops).
Proof.
  intros Hperm Hscr Hhook. rewrite commit_exec; [apply exec_parts|..];
    rewrite ?exec_parts; assumption.
Qed.


Lemma run_app es1 es2 w :
  run (es1 ++ es2) w =
  match run es1 w with Some w' => run es2 w' | None => None end.
Proof.
  revert w; induction es1 as [|e es1 IH]; intros w; simpl; auto.
  destruct (step e w); auto.
Qed.

Lemma run_reachable platform es : forall w w',
  reachable platform w -> run es w = Some w' -> reachable platform w'.
Proof.
  induction es as [|e es IH]; simpl; intros w w' Hw Hrun.
  - congruence.
  - destruct (step e w) as [w1|] eqn:Hstep; [|discriminate].
    eapply IH; [eapply reachable_step; eassumption | exact Hrun].
Qed.

Lemma world_after_reachable platform es w :
  run es (init platform) = Some w -> reachable platform (world_after platform es).
Proof.
  intros H; unfold world_after; rewrite H.
  eapply run_reachable; [apply reachable_init | exact H].
Qed.

(** Destructs a world down to its cells. *)
Ltac open_world w :=
  let p := fresh "platform" in
  let hmp := fresh "hmp" in
  destruct w as [p [hmp ? ? ? ? ? ? ? ?] ? ? ?];
  cbn [state os alerts calls inflight hasMediaPermission assets endCursor
       hasNextPage isLoadingAssets screen selectedAsset cameraPermission
       cameraScreen] in *.

(** ** Steps, case by case *)

Lemma step_inv e w w' :
  step e w = Some w' ->
  (exists ops, is_user_event e = true /\ handler w e = Some ops /\ w' = commit ops w)
  \/ (exists i r c k ops,
        e = settle i r /\ nth_error (inflight w) i = Some (c, k)
        /\ resume k r = Some ops /\ w' = commit ops (answered i w)).
Proof.
  unfold step; intros H.
  destruct e;
    try (left; destruct (handler w _) as [ops|] eqn:Hh; [|discriminate H];
         injection H as <-; exists ops; auto).
  right. destruct (nth_error (inflight w) i) as [[c k]|] eqn:Hn; [|discriminate H].
  destruct (resume k r) as [ops|] eqn:Hr; [|discriminate H].
  injection H as <-. exists i, r, c, k, ops. auto.
Qed.

Section RemoveNth.
Context {A : Type} (f : A -> bool).

Lemma forallb_remove_nth i (l : list A) :
  forallb f l = true -> forallb f (remove_nth i l) = true.
Proof.
  revert i; induction l as [|a l IH]; intros [|i]; simpl; auto;
    rewrite !andb_true_iff; intros [Ha Hl]; auto.
Qed.

Lemma forallb_nth_error i (l : list A) x :
  forallb f l = true -> nth_error l i = Some x -> f x = true.
Proof.
  intros Hall Hn. rewrite forallb_forall in Hall.
  apply Hall. eapply nth_error_In; eassumption.
Qed.

Lemma existsb_remove_nth i (l : list A) x :
  existsb f l = true -> nth_error l i = Some x -> f x = false ->
  existsb f (remove_nth i l) = true.
Proof.
  revert i; induction l as [|a l IH]; intros [|i]; simpl; try discriminate.
  - intros H [= ->] Hx. rewrite Hx in H. exact H.
  - rewrite !orb_true_iff. intros [Ha | Hl] Hn Hx; eauto.
Qed.

End RemoveNth.

(** The operations of a callback, spelled out. *)
Ltac unfold_callbacks :=
  unfold refreshAssets, loadInitialAssets, loadMoreAssets, openCamera,
    onSelectAsset, onViewerBack, onShareSelected, onDeleteSelected, onClose,
    onTakeShot, onFlip, requestPermission, requestPermission_resume,
    mountEffect_resume_get, mountEffect_resume_request,
    loadInitialAssets_resume, loadMoreAssets_resume, openCamera_resume,
    onShareSelected_resume_isAvailable, onShareSelected_resume_share,
    onDeleteSelected_resume, onTakeShot_resume_takePicture,
    onTakeShot_resume_save, try_catch, try_catch_finally, after_load,
    onShotSaved, share_failed, take_failed, refreshAssets, loadInitialAssets.

(** Splits on every condition a callback tests. *)
Ltac split_conditions :=
  repeat match goal with
         | |- context [if ?c then _ else _] => destruct c eqn:?
         | |- context [match ?x with _ => _ end] => destruct x eqn:?
         end.

(** From [handler w e = Some ops] to the callbacks [ops] can be. *)
Ltac handler_cases H :=
  unfold handler, camera_handler in H;
  repeat match type of H with
         | context [match ?x with _ => _ end] => destruct x eqn:?
         end;
  try discriminate H; injection H as <-.

(** From [resume k r = Some ops] to the continuations [ops] can be. *)
Ltac resume_cases H :=
  match type of H with
  | resume ?k ?r = Some _ =>
      destruct k, r as [[?|]|[?|]|[?|]|[?|]|[?|]]; simpl in H;
      try discriminate H; injection H as <-
  end.

(** ** loadMore while exhausted or loading *)

(** C2, as stated, fails: Refresh is pressed during the first load and
    the first load's page arrives.  The refresh's request is still
    outstanding, but the first load's [finally] has lowered the in-flight
    flag, and [loadMoreAssets] passes its guard: it raises the flag and
    asks for the page after cursor c1. *)
Lemma loadMore_runs_while_a_page_is_awaited :
  ~ loadMore_is_dropped_while_a_page_is_awaited.
Proof.
  intros claim.
  pose (w := world_after ios first_page_during_refresh).
  assert (Hreach : reachable ios w)
    by (eapply world_after_reachable; vm_compute; reflexivity).
  assert (Hawaited : existsb is_page_await (inflight w) = true) by reflexivity.
  pose proof (claim ios w Hreach (or_intror Hawaited)) as H.
  apply (f_equal calls) in H. vm_compute in H. discriminate H.
Qed.

(** The request made in that state, and the two then outstanding. *)
Lemma loadMore_during_refresh_asks_again :
  let w := world_after ios first_page_during_refresh in
  isLoadingAssets (state w) = false
  /\ inflight w = [(getAssetsAsync 60 None, k_loadInitialAssets then_nothing)]
  /\ step endReached w = Some (commit (loadMoreAssets (state w)) w)
  /\ inflight (commit (loadMoreAssets (state w)) w)
     = [(getAssetsAsync 60 None, k_loadInitialAssets then_nothing);
        (getAssetsAsync 60 (Some "c1"), k_loadMoreAssets)].
Proof. vm_compute. repeat split; reflexivity. Qed.

(** C2, amended. In every state whose has-more flag is false or whose
    in-flight flag [isLoadingAssets] is set, [loadMoreAssets] performs
    nothing: the callback has no operation to run, the world after the
    call is the world before it (asset list, cursor, has-more, in-flight flag, and also
    the list of platform calls made and outstanding), and so it stays
    under any number of such calls.  The flag, not the outstanding
    requests, is what the guard reads. *)
Theorem loadMore_is_noop_when_exhausted_or_loading (w : World) :
  hasNextPage (state w) = false \/ isLoadingAssets (state w) = true ->
  loadMoreAssets (state w) = []
  /\ commit (loadMoreAssets (state w)) w = w
  /\ (forall n,
       Nat.iter n (fun w' => commit (loadMoreAssets (state w')) w') w = w)
  /\ (forall w', step endReached w = Some w' -> w' = w).
Proof.
  intros Hguard.
  assert (Hnil : loadMoreAssets (state w) = []).
  { unfold loadMoreAssets.
    destruct Hguard as [-> | ->]; [reflexivity|].
    rewrite orb_true_r; reflexivity. }
  assert (Hone : commit (loadMoreAssets (state w)) w = w)
    by (rewrite Hnil; apply commit_nil).
  repeat split; auto.
  - induction n as [|n IH]; simpl; [reflexivity|].
    rewrite IH. exact Hone.
  - unfold step, handler; intros w' H.
    destruct (render (state w)) as [| |[|]| | |]; try discriminate.
    rewrite Hone in H. congruence.
Qed.

Lemma loadMore_is_noop_witness :
  hasNextPage (state (world_after ios both_pages_loaded)) = false
  /\ step endReached (world_after ios both_pages_loaded)
     = Some (world_after ios both_pages_loaded).
Proof.
  split; [reflexivity|].
  destruct (step endReached (world_after ios both_pages_loaded)) as [w'|] eqn:H;
    [|discriminate H].
  f_equal.
  exact (proj2 (proj2 (proj2
           (loadMore_is_noop_when_exhausted_or_loading
              (world_after ios both_pages_loaded)
              (or_introl eq_refl)))) w' H).
Defined.

(** ** Answers of the platform *)

Lemma step_settle w i c k r ops :
  nth_error (inflight w) i = Some (c, k) ->
  resume k r = Some ops ->
  step (settle i r) w = Some (commit ops (answered i w)).
Proof. intros Hnth Hres; unfold step; rewrite Hnth, Hres; reflexivity. Qed.

(** The call a segment has just suspended on is the last one outstanding. *)
Lemma step_settle_last w0 w c k r ops :
  inflight w = inflight w0 ++ [(c, k)] ->
  resume k r = Some ops ->
  step (settle (List.length (inflight w0)) r) w
  = Some (commit ops (answered (List.length (inflight w0)) w))
  /\ inflight (answered (List.length (inflight w0)) w) = inflight w0.
Proof.
  intros Hin Hres; split.
  - eapply step_settle; [rewrite Hin; apply nth_error_last | exact Hres].
  - unfold answered; simpl. rewrite Hin. apply remove_nth_last.
Qed.

(** Runs a segment made of known operations on a world of unknown cells. *)
Ltac run_segment w :=
  cbv zeta;
  first [ rewrite !commit_parts by (first [reflexivity | intros; reflexivity])
        | rewrite !commit_parts_full;
          rewrite ?permissionEffect_same by reflexivity;
          rewrite ?camera_requests_off by (simpl; discriminate) ];
  unfold answered, data; simpl; rewrite ?app_nil_r.

(** A page answering [loadInitialAssets] replaces list, cursor and
    has-more, and lowers the in-flight flag. *)
Lemma loadInitial_fulfilled t result w :
  let w' := commit (loadInitialAssets_resume t (fulfilled result)) w in
  assets (state w') = MediaLibrary.assets result
  /\ endCursor (state w') = MediaLibrary.endCursor result
  /\ hasNextPage (state w') = MediaLibrary.hasNextPage result
  /\ isLoadingAssets (state w') = false
  /\ selectedAsset (state w') = selectedAsset (state w)
  /\ inflight w' = inflight w.
Proof. destruct t; run_segment w; auto 10. Qed.

(** A page answering [loadMoreAssets] is appended to the list of the
    moment. *)
Lemma loadMore_fulfilled result w :
  let w' := commit (loadMoreAssets_resume (fulfilled result)) w in
  assets (state w') = assets (state w) ++ MediaLibrary.assets result
  /\ endCursor (state w') = MediaLibrary.endCursor result
  /\ hasNextPage (state w') = MediaLibrary.hasNextPage result
  /\ isLoadingAssets (state w') = false
  /\ selectedAsset (state w') = selectedAsset (state w)
  /\ screen (state w') = screen (state w)
  /\ inflight w' = inflight w.
Proof. run_segment w; auto 10. Qed.

(** [loadMoreAssets] past its guard: the flag goes up and the next page is
    asked for with the stored cursor. *)
Lemma loadMore_started w :
  hasNextPage (state w) = true -> isLoadingAssets (state w) = false ->
  let w1 := commit (loadMoreAssets (state w)) w in
  isLoadingAssets (state w1) = true
  /\ data (state w1) = data (state w)
  /\ calls w1 = calls w ++ [getAssetsAsync 60 (endCursor (state w))]
  /\ inflight w1
     = inflight w ++ [(getAssetsAsync 60 (endCursor (state w)), k_loadMoreAssets)].
Proof.
  intros Hmore Hidle; unfold loadMoreAssets; rewrite Hmore, Hidle; simpl negb.
  cbn [orb]. run_segment w; auto.
Qed.

(** Two calls of [loadMoreAssets] in a row: the second sees the flag the
    first has raised and is dropped, so one request is outstanding. *)
Lemma second_loadMore_is_dropped w :
  hasNextPage (state w) = true -> isLoadingAssets (state w) = false ->
  let w1 := commit (loadMoreAssets (state w)) w in
  commit (loadMoreAssets (state w1)) w1 = w1
  /\ inflight w1
     = inflight w ++ [(getAssetsAsync 60 (endCursor (state w)), k_loadMoreAssets)].
Proof.
  intros Hmore Hidle w1.
  destruct (loadMore_started w Hmore Hidle) as (Hflag & _ & _ & Hin).
  fold w1 in Hflag, Hin. split; [|exact Hin].
  unfold loadMoreAssets at 1. rewrite Hflag, orb_true_r. apply commit_nil.
Qed.

(** [refreshAssets] up to its [await]. *)
Lemma refresh_started t w :
  let w1 := commit (refreshAssets t) w in
  endCursor (state w1) = None
  /\ hasNextPage (state w1) = true
  /\ isLoadingAssets (state w1) = true
  /\ assets (state w1) = assets (state w)
  /\ selectedAsset (state w1) = selectedAsset (state w)
  /\ screen (state w1) = screen (state w)
  /\ calls w1 = calls w ++ [getAssetsAsync 60 None]
  /\ inflight w1 = inflight w ++ [(getAssetsAsync 60 None, k_loadInitialAssets t)].
Proof. run_segment w; auto 10. Qed.

(** ** loadMore appends *)

(** C3. Past the guard of [loadMoreAssets] (has-more set, nothing flagged
    in flight) the next page is requested with the stored cursor, and when
    the page arrives its assets are appended, in order, after the existing
    list, while the stored cursor and has-more become the page's.  In the
    scenario of the specification the first load brings photos 1, 2, 3 with
    has-more set; the next load brings 4, 5 without has-more; the list is
    then 1, 2, 3, 4, 5, has-more is false, and reaching the end of the list
    once more changes nothing. *)
Theorem loadMore_appends_page :
  (forall w result,
     hasNextPage (state w) = true -> isLoadingAssets (state w) = false ->
     let w1 := commit (loadMoreAssets (state w)) w in
     calls w1 = calls w ++ [getAssetsAsync 60 (endCursor (state w))]
     /\ exists w2,
          step (settle (List.length (inflight w)) (reply_page (fulfilled result))) w1
          = Some w2
          /\ assets (state w2) = assets (state w) ++ MediaLibrary.assets result
          /\ endCursor (state w2) = MediaLibrary.endCursor result
          /\ hasNextPage (state w2) = MediaLibrary.hasNextPage result
          /\ isLoadingAssets (state w2) = false
          /\ inflight w2 = inflight w)
  /\ (let w_first := world_after ios first_page_loaded in
      let w_both := world_after ios both_pages_loaded in
      run first_page_loaded (init ios) = Some w_first
      /\ assets (state w_first) = map photo ["1"; "2"; "3"]
      /\ hasNextPage (state w_first) = true
      /\ run [endReached; settle 0 (reply_page (fulfilled page_45))] w_first
         = Some w_both
      /\ calls w_both
         = calls w_first ++ [getAssetsAsync 60 (Some "c1")]
      /\ assets (state w_both) = map photo ["1"; "2"; "3"; "4"; "5"]
      /\ hasNextPage (state w_both) = false
      /\ step endReached w_both = Some w_both).
Proof.
  split.
  - intros w result Hmore Hidle w1.
    destruct (loadMore_started w Hmore Hidle) as (Hflag & Hdata & Hcalls & Hin).
    fold w1 in Hflag, Hdata, Hcalls, Hin.
    split; [exact Hcalls|].
    destruct (@step_settle_last w w1 _ _ (reply_page (fulfilled result)) _ Hin eq_refl)
      as (Hstep & Hrest).
    eexists; split; [exact Hstep|].
    destruct (loadMore_fulfilled result (answered (List.length (inflight w)) w1))
      as (Ha & Hc & Hn & Hl & _ & _ & Hi).
    assert (Hassets : assets (state w1) = assets (state w))
      by (unfold data in Hdata; congruence).
    unfold answered in Ha at 2; cbn [state] in Ha.
    rewrite Hassets in Ha. rewrite Hi, Hrest. auto 10.
  - vm_compute. repeat split; reflexivity.
Qed.

Lemma loadMore_appends_page_witness :
  assets (state (world_after ios both_pages_loaded))
  = assets (state (world_after ios first_page_loaded))
    ++ MediaLibrary.assets page_45.
Proof.
  destruct (proj1 loadMore_appends_page
              (world_after ios first_page_loaded) page_45 eq_refl eq_refl)
    as (_ & w2 & Hstep & Hassets & _).
  vm_compute in Hstep.
  injection Hstep as <-.
  exact Hassets.
Defined.

(** ** refresh *)

(** C4. From every state, [refreshAssets] sets the cursor to absent and
    has-more to true, then does what [loadInitialAssets] does: it raises
    the in-flight flag and asks for the first page (no cursor); when that
    page arrives, the list is exactly the page's assets, whatever the list
    was before, and cursor and has-more are the page's.  After the two
    pages of the scenario, a refresh answered with photos 6, 1, 2, 3 leaves
    exactly these four. *)
Theorem refresh_replaces_list_with_fresh_page :
  (forall t w result,
     let w1 := commit (refreshAssets t) w in
     refreshAssets t
     = [setEndCursor None; setHasNextPage true] ++ loadInitialAssets t
     /\ endCursor (state w1) = None
     /\ hasNextPage (state w1) = true
     /\ isLoadingAssets (state w1) = true
     /\ calls w1 = calls w ++ [getAssetsAsync 60 None]
     /\ exists w2,
          step (settle (List.length (inflight w)) (reply_page (fulfilled result))) w1
          = Some w2
          /\ assets (state w2) = MediaLibrary.assets result
          /\ endCursor (state w2) = MediaLibrary.endCursor result
          /\ hasNextPage (state w2) = MediaLibrary.hasNextPage result
          /\ isLoadingAssets (state w2) = false
          /\ inflight w2 = inflight w)
  /\ option_map (fun w => assets (state w))
       (run [pressRefresh; settle 0 (reply_page (fulfilled page_6123))]
            (world_after ios both_pages_loaded))
     = Some (map photo ["6"; "1"; "2"; "3"]).
Proof.
  split; [|reflexivity].
  intros t w result w1.
  destruct (refresh_started t w) as (Hc & Hn & Hl & _ & _ & _ & Hcalls & Hin).
  fold w1 in Hc, Hn, Hl, Hcalls, Hin.
  repeat (split; [first [reflexivity | assumption]|]).
  destruct (@step_settle_last w w1 _ _ (reply_page (fulfilled result)) _ Hin eq_refl)
    as (Hstep & Hrest).
  eexists; split; [exact Hstep|].
  destruct (loadInitial_fulfilled t result (answered (List.length (inflight w)) w1))
    as (Ha & Hc' & Hn' & Hl' & _ & Hi).
  rewrite Hi, Hrest. auto 10.
Qed.

(** ** Late answers *)

(** C1, as stated, fails: Refresh is pressed while the first load is
    outstanding, the refresh's page (photos 6, 1, 2, 3) arrives, then the
    first load's page (photos 1, 2, 3) arrives and replaces it. *)
Lemma stale_responses_are_not_discarded : ~ stale_responses_are_discarded.
Proof.
  intros claim.
  pose (w := world_after ios first_load_started).
  pose (w1 := world_after ios (first_load_started ++ [pressRefresh])).
  pose (w2 := world_after ios refreshed_during_first_load).
  pose (w3 := world_after ios
                (refreshed_during_first_load
                 ++ [settle 0 (reply_page (fulfilled page_123))])).
  assert (Hreach : reachable ios w)
    by (eapply world_after_reachable; reflexivity).
  assert (H0 : nth_error (inflight w) 0
               = Some (getAssetsAsync 60 None, k_loadInitialAssets then_nothing))
    by (vm_compute; reflexivity).
  assert (H1 : step pressRefresh w = Some w1) by (vm_compute; reflexivity).
  assert (H2 : step (settle (List.length (inflight w))
                       (reply_page (fulfilled page_6123))) w1 = Some w2)
    by (vm_compute; reflexivity).
  assert (H3 : step (settle 0 (reply_page (fulfilled page_123))) w2 = Some w3)
    by (vm_compute; reflexivity).
  pose proof (claim ios w w1 w2 w3 0 _ _ _ _ Hreach H0 H1 H2 H3) as H.
  vm_compute in H. discriminate H.
Qed.

(** C1, amended. No answer is discarded: when [refreshAssets] runs while
    an earlier [loadInitialAssets] request is still outstanding and the
    refresh's page arrives first, the list, cursor and has-more are those
    of the refresh's page; the late answer to the earlier request is then
    applied like any other, and the list, cursor and has-more become those
    of the late page. *)
Theorem late_initial_load_overwrites_refresh w i c t t' fresh stale :
  nth_error (inflight w) i = Some (c, k_loadInitialAssets t) ->
  let w1 := commit (refreshAssets t') w in
  exists w2 w3,
    step (settle (List.length (inflight w)) (reply_page (fulfilled fresh))) w1 = Some w2
    /\ assets (state w2) = MediaLibrary.assets fresh
    /\ endCursor (state w2) = MediaLibrary.endCursor fresh
    /\ hasNextPage (state w2) = MediaLibrary.hasNextPage fresh
    /\ step (settle i (reply_page (fulfilled stale))) w2 = Some w3
    /\ assets (state w3) = MediaLibrary.assets stale
    /\ endCursor (state w3) = MediaLibrary.endCursor stale
    /\ hasNextPage (state w3) = MediaLibrary.hasNextPage stale.
Proof.
  intros Hearlier w1.
  destruct (refresh_started t' w) as (_ & _ & _ & _ & _ & _ & _ & Hin).
  fold w1 in Hin.
  destruct (@step_settle_last w w1 _ _ (reply_page (fulfilled fresh)) _ Hin eq_refl)
    as (Hstep & Hrest).
  destruct (loadInitial_fulfilled t' fresh (answered (List.length (inflight w)) w1))
    as (Ha & Hc & Hn & _ & _ & Hi).
  set (w2 := commit (loadInitialAssets_resume t' (fulfilled fresh))
               (answered (List.length (inflight w)) w1)) in *.
  assert (Hstill : nth_error (inflight w2) i = Some (c, k_loadInitialAssets t))
    by (rewrite Hi, Hrest; exact Hearlier).
  destruct (loadInitial_fulfilled t stale (answered i w2)) as (Ha' & Hc' & Hn' & _).
  exists w2. eexists.
  split; [exact Hstep|].
  repeat (split; [assumption|]).
  split; [exact (@step_settle w2 i c _ (reply_page (fulfilled stale)) _ Hstill eq_refl)|].
  auto.
Qed.

Lemma late_initial_load_overwrites_refresh_witness :
  nth_error (inflight (world_after ios first_load_started)) 0
  = Some (getAssetsAsync 60 None, k_loadInitialAssets then_nothing)
  /\ exists w2 w3,
       step (settle 1 (reply_page (fulfilled page_6123)))
            (commit (refreshAssets then_nothing) (world_after ios first_load_started))
       = Some w2
       /\ assets (state w2) = map photo ["6"; "1"; "2"; "3"]
       /\ endCursor (state w2) = Some "d1"
       /\ hasNextPage (state w2) = true
       /\ step (settle 0 (reply_page (fulfilled page_123))) w2 = Some w3
       /\ assets (state w3) = map photo ["1"; "2"; "3"]
       /\ endCursor (state w3) = Some "c1"
       /\ hasNextPage (state w3) = true.
Proof.
  split; [reflexivity|].
  exact (@late_initial_load_overwrites_refresh
           (world_after ios first_load_started) 0 _ then_nothing then_nothing
           page_6123 page_123 eq_refl).
Defined.

(** ** Delete *)

Section Filter.
Variable selected : Asset.

Lemma id_differs_false a :
  id_differs selected a = false <-> MediaLibrary.id a = MediaLibrary.id selected.
Proof.
  unfold id_differs; rewrite negb_false_iff; apply String.eqb_eq.
Qed.

Lemma filter_absent l :
  count_occ string_dec (map MediaLibrary.id l) (MediaLibrary.id selected) = 0 ->
  filter (id_differs selected) l = l.
Proof.
  induction l as [|a l IH]; simpl; auto.
  destruct (string_dec (MediaLibrary.id a) (MediaLibrary.id selected)) as [Heq | Hne];
    [discriminate|].
  intros H0. destruct (id_differs selected a) eqn:Hd.
  - f_equal; auto.
  - apply id_differs_false in Hd. contradiction.
Qed.

Lemma count_filter_absent l :
  count_occ string_dec (map MediaLibrary.id (filter (id_differs selected) l))
    (MediaLibrary.id selected) = 0.
Proof.
  induction l as [|a l IH]; simpl; auto.
  destruct (id_differs selected a) eqn:Hd; simpl; auto.
  destruct (string_dec (MediaLibrary.id a) (MediaLibrary.id selected)) as [Heq | Hne]; auto.
  apply id_differs_false in Heq. congruence.
Qed.

(** Filtering on the identifier splits a list holding it once around
    that one entry. *)
Lemma filter_present_once l :
  count_occ string_dec (map MediaLibrary.id l) (MediaLibrary.id selected) = 1 ->
  exists before a after,
    l = before ++ a :: after
    /\ MediaLibrary.id a = MediaLibrary.id selected
    /\ filter (id_differs selected) l = before ++ after.
Proof.
  induction l as [|a l IH]; simpl; [discriminate|].
  destruct (string_dec (MediaLibrary.id a) (MediaLibrary.id selected)) as [Heq | Hne];
    intros Hc.
  - exists [], a, l. repeat split; auto.
    destruct (id_differs selected a) eqn:Hd.
    + apply id_differs_false in Heq. congruence.
    + simpl. apply filter_absent. congruence.
  - destruct (IH Hc) as (before & b & after & -> & Hb & Hf).
    exists (a :: before), b, after. repeat split; auto.
    destruct (id_differs selected a) eqn:Hd.
    + simpl. f_equal. exact Hf.
    + apply id_differs_false in Hd. contradiction.
Qed.

End Filter.

Lemma delete_started w selected :
  selectedAsset (state w) = Some selected ->
  let w1 := commit (onDeleteSelected (state w)) w in
  state w1 = state w
  /\ alerts w1 = alerts w
  /\ calls w1 = calls w ++ [deleteAssetsAsync [MediaLibrary.id selected]]
  /\ inflight w1
     = inflight w
       ++ [(deleteAssetsAsync [MediaLibrary.id selected], k_onDeleteSelected selected)].
Proof.
  intros Hsel; unfold onDeleteSelected; rewrite Hsel.
  run_segment w; auto.
Qed.

Lemma delete_fulfilled selected w :
  let w' := commit (onDeleteSelected_resume selected (fulfilled tt)) w in
  assets (state w') = filter (id_differs selected) (assets (state w))
  /\ selectedAsset (state w') = None
  /\ screen (state w') = gallery
  /\ endCursor (state w') = endCursor (state w)
  /\ hasNextPage (state w') = hasNextPage (state w)
  /\ alerts w' = alerts w
  /\ inflight w' = inflight w.
Proof. run_segment w; auto 10. Qed.

(** C5. With a photo selected whose identifier occurs exactly once in the
    list, [onDeleteSelected] asks the platform to delete that one
    identifier, and when the platform succeeds the list loses exactly the
    entry with that identifier (the entries before and after it stay, in
    order: one entry fewer, none left with the identifier), the selection
    becomes null and the screen becomes the gallery. *)
Theorem delete_removes_exactly_the_selected_asset w selected :
  selectedAsset (state w) = Some selected ->
  count_occ string_dec (map MediaLibrary.id (assets (state w)))
    (MediaLibrary.id selected) = 1 ->
  let w1 := commit (onDeleteSelected (state w)) w in
  calls w1 = calls w ++ [deleteAssetsAsync [MediaLibrary.id selected]]
  /\ exists w2,
       step (settle (List.length (inflight w)) (reply_void (fulfilled tt))) w1 = Some w2
       /\ (exists before a after,
             assets (state w) = before ++ a :: after
             /\ MediaLibrary.id a = MediaLibrary.id selected
             /\ assets (state w2) = before ++ after)
       /\ S (List.length (assets (state w2))) = List.length (assets (state w))
       /\ count_occ string_dec (map MediaLibrary.id (assets (state w2)))
            (MediaLibrary.id selected) = 0
       /\ selectedAsset (state w2) = None
       /\ screen (state w2) = gallery.
Proof.
  intros Hsel Honce w1.
  destruct (delete_started w Hsel) as (Hst & _ & Hcalls & Hin).
  fold w1 in Hst, Hcalls, Hin.
  split; [exact Hcalls|].
  destruct (@step_settle_last w w1 _ _ (reply_void (fulfilled tt)) _ Hin eq_refl)
    as (Hstep & _).
  eexists; split; [exact Hstep|].
  destruct (delete_fulfilled selected (answered (List.length (inflight w)) w1))
    as (Ha & Hs & Hscr & _).
  unfold answered in Ha at 2; cbn [state] in Ha. rewrite Hst in Ha.
  destruct (filter_present_once selected _ Honce) as (before & a & after & Hl & Hid & Hf).
  split; [exists before, a, after; repeat split; congruence|].
  split.
  { rewrite Ha, Hf, Hl, !length_app; simpl; lia. }
  split; [rewrite Ha; apply count_filter_absent|].
  auto.
Qed.

Lemma delete_removes_exactly_the_selected_asset_witness :
  selectedAsset (state (world_after ios photo_3_open)) = Some (photo "3")
  /\ exists w2,
       step (settle 0 (reply_void (fulfilled tt)))
            (commit (onDeleteSelected (state (world_after ios photo_3_open)))
                    (world_after ios photo_3_open)) = Some w2
       /\ assets (state w2) = map photo ["1"; "2"; "4"; "5"]
       /\ selectedAsset (state w2) = None
       /\ screen (state w2) = gallery.
Proof.
  split; [reflexivity|].
  destruct (@delete_removes_exactly_the_selected_asset
              (world_after ios photo_3_open) (photo "3") eq_refl eq_refl)
    as (_ & w2 & Hstep & _ & _ & _ & Hsel & Hscr).
  exists w2.
  split; [exact Hstep|].
  split; [|split; assumption].
  vm_compute in Hstep. injection Hstep as <-. reflexivity.
Defined.

(** ** Nothing selected *)

(** C9. With no selection, [onShareSelected] and [onDeleteSelected] have
    nothing to run: the world after either call is the world before it, so
    no platform call is made and no cell changes. *)
Theorem share_and_delete_need_a_selection w :
  selectedAsset (state w) = None ->
  onShareSelected (state w) = []
  /\ onDeleteSelected (state w) = []
  /\ commit (onShareSelected (state w)) w = w
  /\ commit (onDeleteSelected (state w)) w = w.
Proof.
  intros Hnone; unfold onShareSelected, onDeleteSelected; rewrite Hnone.
  repeat split; auto using commit_nil.
Qed.

Lemma share_and_delete_need_a_selection_witness :
  commit (onShareSelected (state (world_after ios both_pages_loaded)))
         (world_after ios both_pages_loaded)
  = world_after ios both_pages_loaded
  /\ commit (onDeleteSelected (state (world_after ios both_pages_loaded)))
            (world_after ios both_pages_loaded)
     = world_after ios both_pages_loaded.
Proof.
  exact (proj2 (proj2 (@share_and_delete_need_a_selection
                         (world_after ios both_pages_loaded) eq_refl))).
Defined.

(** ** Failing platform calls *)

(** The four callbacks that touch no cell before their call settles. *)
Lemma loadInitial_rejected w :
  let w' := commit (loadInitialAssets_resume then_nothing rejected) w in
  data (state w') = data (state w)
  /\ isLoadingAssets (state w') = false
  /\ alerts w' = alerts w ++ [("Error", "Failed to load photos.")]
  /\ inflight w' = inflight w.
Proof. run_segment w; auto. Qed.

Lemma loadMore_rejected w :
  let w' := commit (loadMoreAssets_resume rejected) w in
  data (state w') = data (state w)
  /\ isLoadingAssets (state w') = false
  /\ alerts w' = alerts w ++ [("Error", "Failed to load more photos.")]
  /\ inflight w' = inflight w.
Proof. run_segment w; auto. Qed.

Lemma delete_rejected selected w :
  let w' := commit (onDeleteSelected_resume selected rejected) w in
  state w' = state w
  /\ alerts w' = alerts w ++ [("Delete failed", "Unable to delete this photo.")]
  /\ inflight w' = inflight w.
Proof. run_segment w; auto. Qed.

Lemma share_rejected selected w :
  let w' := commit (onShareSelected_resume_isAvailable selected rejected) w in
  let w'' := commit (onShareSelected_resume_share rejected) w in
  (state w' = state w
   /\ alerts w' = alerts w ++ [("Share failed", "Unable to share this photo.")]
   /\ inflight w' = inflight w)
  /\ (state w'' = state w
      /\ alerts w'' = alerts w ++ [("Share failed", "Unable to share this photo.")]
      /\ inflight w'' = inflight w).
Proof. run_segment w; auto 10. Qed.

(** Called from any state, [loadInitialAssets], [loadMoreAssets],
    [onDeleteSelected] and [onShareSelected] leave list, cursor, has-more,
    selection and screen as they were when their platform call fails, and
    raise a notice. *)
Lemma failures_of_the_other_callbacks_keep_data w :
  (exists w2,
     step (settle (List.length (inflight w)) (reply_page rejected))
          (commit (loadInitialAssets then_nothing) w) = Some w2
     /\ data (state w2) = data (state w)
     /\ alerts w2 = alerts w ++ [("Error", "Failed to load photos.")])
  /\ (hasNextPage (state w) = true -> isLoadingAssets (state w) = false ->
      exists w2,
        step (settle (List.length (inflight w)) (reply_page rejected))
             (commit (loadMoreAssets (state w)) w) = Some w2
        /\ data (state w2) = data (state w)
        /\ alerts w2 = alerts w ++ [("Error", "Failed to load more photos.")])
  /\ (forall selected, selectedAsset (state w) = Some selected ->
      (exists w2,
         step (settle (List.length (inflight w)) (reply_void rejected))
              (commit (onDeleteSelected (state w)) w) = Some w2
         /\ data (state w2) = data (state w)
         /\ alerts w2 = alerts w ++ [("Delete failed", "Unable to delete this photo.")])
      /\ (exists w2,
            step (settle (List.length (inflight w)) (reply_bool rejected))
                 (commit (onShareSelected (state w)) w) = Some w2
            /\ data (state w2) = data (state w)
            /\ alerts w2 = alerts w ++ [("Share failed", "Unable to share this photo.")])).
Proof.
  split; [|split].
  - assert (Hin : inflight (commit (loadInitialAssets then_nothing) w)
                  = inflight w ++ [(getAssetsAsync 60 None, k_loadInitialAssets then_nothing)])
      by (run_segment w; reflexivity).
    assert (Hdata : data (state (commit (loadInitialAssets then_nothing) w))
                    = data (state w) /\
                    alerts (commit (loadInitialAssets then_nothing) w) = alerts w)
      by (run_segment w; auto).
    destruct (@step_settle_last w _ _ _ (reply_page rejected) _ Hin eq_refl) as (Hstep & _).
    eexists; split; [exact Hstep|].
    destruct (loadInitial_rejected
                (answered (List.length (inflight w))
                   (commit (loadInitialAssets then_nothing) w))) as (Hd & _ & Ha & _).
    rewrite Hd, Ha. cbn [answered state alerts].
    destruct Hdata as (-> & ->). auto.
  - intros Hmore Hidle.
    destruct (loadMore_started w Hmore Hidle) as (_ & Hdata & _ & Hin).
    assert (Hal : alerts (commit (loadMoreAssets (state w)) w) = alerts w).
    { unfold loadMoreAssets; rewrite Hmore, Hidle; run_segment w; reflexivity. }
    destruct (@step_settle_last w _ _ _ (reply_page rejected) _ Hin eq_refl) as (Hstep & _).
    eexists; split; [exact Hstep|].
    destruct (loadMore_rejected
                (answered (List.length (inflight w))
                   (commit (loadMoreAssets (state w)) w))) as (Hd & _ & Ha & _).
    rewrite Hd, Ha. cbn [answered state alerts]. rewrite Hdata, Hal. auto.
  - intros selected Hsel; split.
    + destruct (delete_started w Hsel) as (Hst & Hal & _ & Hin).
      destruct (@step_settle_last w _ _ _ (reply_void rejected) _ Hin eq_refl) as (Hstep & _).
      eexists; split; [exact Hstep|].
      destruct (delete_rejected selected
                  (answered (List.length (inflight w))
                     (commit (onDeleteSelected (state w)) w))) as (Hd & Ha & _).
      rewrite Hd, Ha. cbn [answered state alerts]. rewrite Hst, Hal. auto.
    + assert (H : state (commit (onShareSelected (state w)) w) = state w
                  /\ alerts (commit (onShareSelected (state w)) w) = alerts w
                  /\ inflight (commit (onShareSelected (state w)) w)
                     = inflight w ++ [(isAvailableAsync, k_onShareSelected_isAvailable selected)]).
      { unfold onShareSelected; rewrite Hsel; run_segment w; auto. }
      destruct H as (Hst & Hal & Hin).
      destruct (@step_settle_last w _ _ _ (reply_bool rejected) _ Hin eq_refl) as (Hstep & _).
      eexists; split; [exact Hstep|].
      destruct (share_rejected selected
                  (answered (List.length (inflight w))
                     (commit (onShareSelected (state w)) w))) as ((Hd & Ha & _) & _).
      rewrite Hd, Ha. cbn [answered state alerts]. rewrite Hst, Hal. auto.
Qed.

(** C6, at the failing input. [refreshAssets] resets cursor and has-more
    before the platform call; when that call fails, the failure is caught
    and a notice is raised, the list is untouched, but cursor and has-more
    stay reset.  After the two pages of the scenario (cursor c2, has-more
    false) a failed refresh leaves the five photos with no cursor and
    has-more true, and the next end-of-list then fetches the first page
    again and appends it to the five. *)
Theorem refresh_failure_keeps_cursor_reset :
  (forall t w,
     exists w2,
       step (settle (List.length (inflight w)) (reply_page rejected))
            (commit (refreshAssets t) w) = Some w2
       /\ assets (state w2) = assets (state w)
       /\ selectedAsset (state w2) = selectedAsset (state w)
       /\ endCursor (state w2) = None
       /\ hasNextPage (state w2) = true
       /\ alerts w2 = alerts w ++ [("Error", "Failed to load photos.")])
  /\ (data (state (world_after ios both_pages_loaded))
      = (map photo ["1"; "2"; "3"; "4"; "5"], Some "c2", false, None, gallery)
      /\ option_map (fun w => (data (state w), alerts w))
           (run [pressRefresh; settle 0 (reply_page rejected)]
                (world_after ios both_pages_loaded))
         = Some ((map photo ["1"; "2"; "3"; "4"; "5"], None, true, None, gallery),
                 [("Error", "Failed to load photos.")])
      /\ option_map (fun w => (assets (state w), calls w))
           (run [pressRefresh; settle 0 (reply_page rejected);
                 endReached; settle 0 (reply_page (fulfilled page_123))]
                (world_after ios both_pages_loaded))
         = Some (map photo ["1"; "2"; "3"; "4"; "5"; "1"; "2"; "3"],
                 calls (world_after ios both_pages_loaded)
                 ++ [getAssetsAsync 60 None; getAssetsAsync 60 None])).
Proof.
  split.
  - intros t w.
    destruct (refresh_started t w) as (_ & _ & _ & _ & _ & _ & _ & Hin).
    destruct (@step_settle_last w _ _ _ (reply_page rejected) _ Hin eq_refl) as (Hstep & _).
    eexists; split; [exact Hstep|].
    clear; destruct t; run_segment w; auto 10.
  - vm_compute. auto.
Qed.

(** ** The selection rule of the viewer *)

(** What a commit leaves in the cells of the navigator and in the list. *)
Lemma commit_navigation ops w :
  screen (state (commit ops w)) = screen (run_setters ops (state w))
  /\ selectedAsset (state (commit ops w)) = selectedAsset (run_setters ops (state w))
  /\ assets (state (commit ops w)) = assets (run_setters ops (state w)).
Proof.
  rewrite commit_parts_full; cbn [state].
  destruct (permissionEffect_cases (state w) (run_setters ops (state w))) as [-> | ->];
    simpl; auto.
Qed.








(** The Back button and a successful delete write the selection before
    the screen: between these two setter calls the cells read viewer and
    null. *)
Lemma back_and_delete_clear_selection_before_screen selected w :
  screen (state w) = viewer ->
  (exists w', In w' (states_along onViewerBack w)
              /\ screen (state w') = viewer /\ selectedAsset (state w') = None)
  /\ (exists w', In w' (states_along (onDeleteSelected_resume selected (fulfilled tt)) w)
                 /\ screen (state w') = viewer /\ selectedAsset (state w') = None).
Proof.
  intros Hv; split.
  - eexists; split; [left; reflexivity|]. simpl; auto.
  - eexists; split; [right; left; reflexivity|]. simpl; auto.
Qed.





(** ** Opening the camera *)

(** C10. On the web, [openCamera] only raises the notice titled
    [Not supported], whatever the camera permission is: no permission is
    read or requested, no platform call is made, every cell, the screen
    among them, keeps its value. *)
Theorem camera_is_refused_on_web w :
  os w = web ->
  openCamera (os w) (state w)
  = [ Alert_alert "Not supported" "Camera is not supported on web in this demo." ]
  /\ commit (openCamera (os w) (state w)) w
     = mkWorld (os w) (state w)
         (alerts w ++ [("Not supported", "Camera is not supported on web in this demo.")])
         (calls w) (inflight w)
  /\ (forall w', step pressCamera w = Some w' ->
        state w' = state w /\ screen (state w') = gallery
        /\ calls w' = calls w /\ inflight w' = inflight w
        /\ alerts w'
           = alerts w ++ [("Not supported", "Camera is not supported on web in this demo.")]).
Proof.
  intros Hweb; unfold openCamera; rewrite Hweb; cbn [OS_eqb].
  assert (Hc : commit
                 [Alert_alert "Not supported" "Camera is not supported on web in this demo."] w
               = mkWorld web (state w)
                   (alerts w ++ [("Not supported", "Camera is not supported on web in this demo.")])
                   (calls w) (inflight w)).
  { rewrite commit_exec by reflexivity. unfold exec; simpl. rewrite Hweb. reflexivity. }
  split; [reflexivity|]. split; [exact Hc|].
  unfold step, handler, openCamera; intros w' H.
  unfold render in H.
  destruct (hasMediaPermission (state w)) as [[|]|]; try discriminate H.
  destruct (screen (state w)) eqn:Hscr; try discriminate H.
  - rewrite Hweb in H; cbn [OS_eqb] in H. rewrite Hc in H.
    injection H as <-. cbn. auto.
  - destruct (selectedAsset (state w)); discriminate H.
Qed.

Lemma camera_is_refused_on_web_witness :
  os (world_after web first_page_loaded) = web
  /\ option_map (fun w => (screen (state w), calls w, alerts w))
       (step pressCamera (world_after web first_page_loaded))
     = Some (gallery,
             calls (world_after web first_page_loaded),
             [("Not supported", "Camera is not supported on web in this demo.")]).
Proof.
  split; [reflexivity|].
  destruct (step pressCamera (world_after web first_page_loaded)) as [w'|] eqn:H;
    [|vm_compute in H; discriminate H].
  destruct (proj2 (proj2 (@camera_is_refused_on_web
                            (world_after web first_page_loaded) eq_refl)) w' H)
    as (_ & Hscr & Hcalls & _ & Hal).
  cbn [option_map]. rewrite Hscr, Hcalls, Hal. reflexivity.
Defined.

(** C8, as stated, fails on the web: with the gallery on screen and no
    camera permission, pressing Camera requests nothing. *)
Lemma camera_permission_is_not_requested_on_web :
  ~ camera_permission_is_always_requested.
Proof.
  intros claim.
  pose (w := world_after web first_page_loaded).
  pose (w1 := world_after web (first_page_loaded ++ [pressCamera])).
  assert (Hreach : reachable web w)
    by (eapply world_after_reachable; reflexivity).
  assert (Hperm : granted_opt (cameraPermission (state w)) = false)
    by reflexivity.
  assert (Hstep : step pressCamera w = Some w1) by (vm_compute; reflexivity).
  pose proof (claim web w w1 Hreach Hperm Hstep) as H.
  vm_compute in H. exact H.
Qed.

(** [openCamera] once the permission request is answered. *)
Lemma openCamera_answered res v :
  let v' := commit (openCamera_resume (fulfilled res)) v in
  (MediaLibrary.granted res = false ->
     data (state v') = data (state v)
     /\ screen (state v') = screen (state v)
     /\ calls v' = calls v
     /\ alerts v'
        = alerts v ++ [("Permission required", "Camera access is needed to take photos.")])
  /\ (MediaLibrary.granted res = true ->
       screen (state v') = camera /\ alerts v' = alerts v).
Proof.
  unfold openCamera_resume.
  split; intros Hres; rewrite Hres; cbn [negb]; run_segment v; auto.
Qed.

(** C8, amended. Off the web, [openCamera] shows the camera at once when
    the camera permission is already granted; otherwise it requests the
    permission and touches no cell meanwhile.  When the request is denied,
    a notice titled [Permission required] is raised and list, cursor,
    has-more, selection and screen are as before the attempt (the gallery
    stays the gallery); when it is granted, the screen becomes the
    camera. *)
Theorem camera_opens_only_with_permission w :
  os w <> web ->
  let w1 := commit (openCamera (os w) (state w)) w in
  (granted_opt (cameraPermission (state w)) = true ->
     screen (state w1) = camera /\ calls w1 = calls w /\ alerts w1 = alerts w)
  /\ (granted_opt (cameraPermission (state w)) = false ->
      state w1 = state w
      /\ calls w1 = calls w ++ [requestCameraPermission]
      /\ forall res,
           exists w2,
             step (settle (List.length (inflight w)) (reply_permission (fulfilled res))) w1
             = Some w2
             /\ (MediaLibrary.granted res = false ->
                 data (state w2) = data (state w)
                 /\ screen (state w2) = screen (state w)
                 /\ calls w2 = calls w1
                 /\ alerts w2
                    = alerts w
                      ++ [("Permission required", "Camera access is needed to take photos.")])
             /\ (MediaLibrary.granted res = true ->
                 screen (state w2) = camera /\ alerts w2 = alerts w)).
Proof.
  intros Hos w1.
  assert (Hweb : OS_eqb (os w) web = false) by (destruct (os w); auto; congruence).
  subst w1; unfold openCamera; rewrite Hweb.
  split; intros Hg; rewrite Hg; cbn [negb].
  - rewrite commit_parts_full.
    rewrite permissionEffect_same by reflexivity.
    rewrite camera_requests_granted by (first [exact Hg | intros; reflexivity]).
    simpl; rewrite ?app_nil_r; auto.
  - assert (H : state (commit [await requestCameraPermission k_openCamera] w) = state w
                /\ alerts (commit [await requestCameraPermission k_openCamera] w) = alerts w
                /\ calls (commit [await requestCameraPermission k_openCamera] w)
                   = calls w ++ [requestCameraPermission]
                /\ inflight (commit [await requestCameraPermission k_openCamera] w)
                   = inflight w ++ [(requestCameraPermission, k_openCamera)])
      by (clear; run_segment w; auto).
    destruct H as (Hst & Hal & Hcalls & Hin).
    split; [exact Hst|]. split; [exact Hcalls|].
    intros res.
    destruct (@step_settle_last w _ _ _ (reply_permission (fulfilled res)) _ Hin eq_refl)
      as (Hstep & _).
    eexists; split; [exact Hstep|].
    destruct (openCamera_answered res
                (answered (List.length (inflight w))
                   (commit [await requestCameraPermission k_openCamera] w)))
      as (Hdenied & Hgranted).
    cbn [answered state alerts calls] in Hdenied, Hgranted.
    rewrite Hst, Hal in Hdenied. rewrite Hal in Hgranted.
    split; intros Hres; [destruct (Hdenied Hres) as (? & ? & ? & ?) | auto].
    auto.
Qed.

Lemma camera_opens_only_with_permission_witness :
  os (world_after ios first_page_loaded) <> web
  /\ option_map (fun w => (screen (state w), alerts w))
       (run [pressCamera; settle 0 (reply_permission (fulfilled permission_denied))]
            (world_after ios first_page_loaded))
     = Some (gallery,
             [("Permission required", "Camera access is needed to take photos.")]).
Proof.
  split; [discriminate|].
  destruct (proj2 (@camera_opens_only_with_permission
                     (world_after ios first_page_loaded)
                     ltac:(discriminate)) eq_refl)
    as (_ & _ & Hanswer).
  destruct (Hanswer permission_denied) as (w2 & Hstep & Hdenied & _).
  destruct (Hdenied eq_refl) as (_ & Hscr & _ & Hal).
  vm_compute in Hstep. injection Hstep as <-.
  reflexivity.
Defined.

(** * Further properties of the callbacks *)

(** ** The media permission *)

Lemma user_ops_leave_permission w e ops :
  handler w e = Some ops ->
  (forall s, hasMediaPermission (run_setters ops s) = hasMediaPermission s)
  /\ forallb (fun ck => negb (is_mount_kont (snd ck))) (awaited ops) = true.
Proof.
  intros H; handler_cases H; unfold_callbacks; split_conditions;
    split; intros; reflexivity.
Qed.

Lemma later_ops_leave_permission k r ops :
  is_mount_kont k = false -> resume k r = Some ops ->
  (forall s, hasMediaPermission (run_setters ops s) = hasMediaPermission s)
  /\ forallb (fun ck => negb (is_mount_kont (snd ck))) (awaited ops) = true.
Proof.
  intros Hk H; resume_cases H; try discriminate Hk;
    unfold_callbacks; split_conditions; split; intros; reflexivity.
Qed.

(** Without the media permission nothing of the gallery is rendered, so
    no control can fire. *)
Lemma no_control_without_permission w e :
  hasMediaPermission (state w) <> Some true ->
  is_user_event e = true -> step e w = None.
Proof.
  intros Hperm He; unfold step, handler, render.
  destruct (hasMediaPermission (state w)) as [[|]|]; [congruence| |];
    destruct e; try reflexivity; discriminate He.
Qed.

Lemma step_keeps_permission_rule e w w' :
  step e w = Some w' -> permission_rule w -> permission_rule w'.
Proof.
  intros Hstep Hrule.
  destruct (hasMediaPermission (state w)) as [[|]|] eqn:Hperm.
  - (* granted: the mount effect is over *)
    unfold permission_rule in Hrule; rewrite Hperm in Hrule.
    destruct (step_inv _ _ Hstep)
      as [(ops & _ & Hh & ->) | (i & r & c & k & ops & -> & Hn & Hr & ->)].
    + destruct (user_ops_leave_permission _ _ Hh) as (Hsame & Hnew).
      destruct (commit_keeping_permission ops w Hsame)
        as (slot & requests & -> & Hreq).
      unfold permission_rule; cbn [state inflight with_cameraScreen hasMediaPermission].
      rewrite Hsame, Hperm, !forallb_app, Hrule, Hnew.
      destruct Hreq as [-> | (_ & i & ->)]; reflexivity.
    + pose proof (forallb_nth_error _ _ _ Hrule Hn) as Hk; cbn [snd] in Hk.
      apply negb_true_iff in Hk.
      destruct (later_ops_leave_permission _ _ Hk Hr) as (Hsame & Hnew).
      destruct (commit_keeping_permission ops (answered i w) Hsame)
        as (slot & requests & -> & Hreq).
      unfold permission_rule;
        cbn [state inflight answered with_cameraScreen hasMediaPermission].
      rewrite Hsame, Hperm, !forallb_app, Hnew, forallb_remove_nth by exact Hrule.
      destruct Hreq as [-> | (_ & i' & ->)]; reflexivity.
  - (* refused *)
    destruct (is_user_event e) eqn:He.
    { rewrite no_control_without_permission in Hstep; congruence. }
    unfold permission_rule in Hrule; rewrite Hperm in Hrule.
    destruct Hrule as (_ & [(Hst & _) | (Hst & Hin)]); rewrite Hst in Hperm;
      [discriminate Hperm|].
    destruct e; try discriminate He.
    unfold step in Hstep; rewrite Hin in Hstep. destruct i; discriminate Hstep.
  - (* undecided *)
    destruct (is_user_event e) eqn:He.
    { rewrite no_control_without_permission in Hstep; congruence. }
    unfold permission_rule in Hrule; rewrite Hperm in Hrule.
    destruct Hrule as (Hcalls & [(Hst & Hin) | (Hst & _)]);
      [|rewrite Hst in Hperm; discriminate Hperm].
    destruct e; try discriminate He.
    unfold step in Hstep.
    destruct w as [p s al cl infl]; cbn [state inflight calls] in *; subst s.
    destruct Hin as [-> | [-> | ->]]; destruct i as [|[|i]]; try discriminate Hstep;
      cbn [nth_error] in Hstep;
      destruct r as [[?|]|[res|]|[?|]|[?|]|[?|]]; try discriminate Hstep;
      cbn [resume] in Hstep; injection Hstep as <-;
      unfold mountEffect_resume_get, mountEffect_resume_request;
      try destruct (negb _) eqn:?; try destruct (MediaLibrary.granted res) eqn:?;
      unfold permission_rule, awaiting_permission, commit, exec, answered,
        permissionEffect, loadInitialAssets;
      cbn; rewrite ?forallb_app, ?Hcalls; cbn; auto 10.
Qed.

Lemma reachable_permission_rule platform w :
  reachable platform w -> permission_rule w.
Proof.
  induction 1 as [|w e w' _ IH Hstep].
  - unfold permission_rule, awaiting_permission; cbn. auto 10.
  - eapply step_keeps_permission_rule; eassumption.
Qed.

(** ** The in-flight flag *)

Lemma exec_keeps_loading_rule ops w :
  raises_flag_with_request ops -> loading_rule w -> loading_rule (exec ops w).
Proof.
  intros Hops Hw; rewrite exec_parts; unfold loading_rule; cbn [state inflight].
  intros Hflag; rewrite existsb_app.
  destruct (Hops _ Hflag) as [Hold | ->]; [rewrite (Hw Hold)|rewrite orb_true_r];
    reflexivity.
Qed.

Lemma user_ops_raise_flag_with_request w e ops :
  handler w e = Some ops -> raises_flag_with_request ops.
Proof.
  intros H; handler_cases H; unfold_callbacks; split_conditions;
    intro; cbn; auto.
Qed.

Lemma later_ops_raise_flag_with_request k r ops :
  resume k r = Some ops -> raises_flag_with_request ops.
Proof.
  intros H; resume_cases H; unfold_callbacks; split_conditions;
    intro; cbn; auto.
Qed.

Lemma permissionEffect_raises_flag_with_request s s' :
  raises_flag_with_request (permissionEffect s s').
Proof.
  destruct (permissionEffect_cases s s') as [-> | ->]; intro; cbn; auto.
Qed.

(** The answer to a page request lowers the flag, whatever it is. *)
Lemma page_answer_lowers_flag k r ops :
  is_page_kont k = true -> resume k r = Some ops ->
  (forall s, isLoadingAssets (run_setters ops s) = false)
  /\ (forall s, hasMediaPermission (run_setters ops s) = hasMediaPermission s)
  /\ awaited ops = [].
Proof.
  intros Hk H; resume_cases H; try discriminate Hk;
    unfold_callbacks; split_conditions; repeat split; intros; reflexivity.
Qed.

Lemma reconcile_keeps_loading_rule before ops w :
  loading_rule w -> loading_rule (reconcile before ops w).
Proof.
  intros Hw; rewrite reconcile_parts; unfold loading_rule.
  cbn [state inflight with_cameraScreen isLoadingAssets].
  intros Hflag; rewrite existsb_app, (Hw Hflag). reflexivity.
Qed.

Lemma step_keeps_loading_rule e w w' :
  step e w = Some w' -> loading_rule w -> loading_rule w'.
Proof.
  intros Hstep Hw.
  destruct (step_inv _ _ Hstep)
    as [(ops & _ & Hh & ->) | (i & r & c & k & ops & -> & Hn & Hr & ->)];
    unfold commit; cbv zeta; apply reconcile_keeps_loading_rule.
  - apply exec_keeps_loading_rule; [apply permissionEffect_raises_flag_with_request|].
    apply exec_keeps_loading_rule; [eapply user_ops_raise_flag_with_request; eassumption|].
    exact Hw.
  - apply exec_keeps_loading_rule; [apply permissionEffect_raises_flag_with_request|].
    destruct (is_page_kont k) eqn:Hk.
    + destruct (page_answer_lowers_flag _ _ Hk Hr) as (Hlow & _).
      rewrite exec_parts; unfold loading_rule; cbn [state].
      rewrite Hlow; discriminate.
    + apply exec_keeps_loading_rule; [eapply later_ops_raise_flag_with_request; eassumption|].
      unfold loading_rule, answered; cbn [state inflight]; intros Hflag.
      eapply existsb_remove_nth; [apply Hw, Hflag | exact Hn |].
      unfold is_page_await; cbn [fst snd]; rewrite Hk; destruct c; reflexivity.
Qed.

(** ** The web *)

Lemma exec_keeps_web_rule ops w :
  leaves_camera_alone ops -> web_rule w -> web_rule (exec ops w).
Proof.
  intros (Hscr & Hk & Hc) (Hw1 & Hw2 & Hw3); rewrite exec_parts.
  unfold web_rule; cbn [state calls inflight].
  rewrite !forallb_app, Hw2, Hw3, Hk, Hc. auto.
Qed.

Lemma user_ops_leave_camera_alone_on_web w e ops :
  os w = web -> handler w e = Some ops -> leaves_camera_alone ops.
Proof.
  intros Hos H; unfold handler, camera_handler, render_CameraScreen in H;
    rewrite Hos in H; cbn [OS_eqb] in H.
  handler_cases H; unfold_callbacks; cbn [OS_eqb]; split_conditions;
    repeat split; intros; cbn in *; congruence.
Qed.

Lemma later_ops_leave_camera_alone k r ops :
  is_camera_kont k = false -> resume k r = Some ops -> leaves_camera_alone ops.
Proof.
  intros Hk H; resume_cases H; try discriminate Hk;
    unfold_callbacks; split_conditions; repeat split; intros; cbn in *; congruence.
Qed.

Lemma permissionEffect_leaves_camera_alone s s' :
  leaves_camera_alone (permissionEffect s s').
Proof.
  destruct (permissionEffect_cases s s') as [-> | ->];
    repeat split; intros; cbn in *; congruence.
Qed.

Lemma step_keeps_os e w w' : step e w = Some w' -> os w' = os w.
Proof.
  intros Hstep.
  destruct (step_inv _ _ Hstep)
    as [(ops & _ & _ & ->) | (i & r & c & k & ops & _ & _ & _ & ->)];
    rewrite commit_parts_full; reflexivity.
Qed.

Lemma reconcile_keeps_web_rule before ops w :
  web_rule w -> web_rule (reconcile before ops w).
Proof.
  intros (Hscr & Hcalls & Hin); rewrite reconcile_parts.
  rewrite (@camera_requests_off before ops (state w) Hscr).
  unfold web_rule; cbn [state calls inflight with_cameraScreen screen map].
  rewrite !app_nil_r. auto.
Qed.

Lemma reachable_os platform w : reachable platform w -> os w = platform.
Proof.
  induction 1 as [|w e w' _ IH Hstep]; [reflexivity|].
  rewrite (step_keeps_os _ _ Hstep). exact IH.
Qed.

Lemma step_keeps_web_rule e w w' :
  os w = web -> step e w = Some w' -> web_rule w -> web_rule w'.
Proof.
  intros Hos Hstep Hw.
  destruct (step_inv _ _ Hstep)
    as [(ops & _ & Hh & ->) | (i & r & c & k & ops & -> & Hn & Hr & ->)];
    unfold commit; cbv zeta; apply reconcile_keeps_web_rule;
    (apply exec_keeps_web_rule; [apply permissionEffect_leaves_camera_alone|]).
  - apply exec_keeps_web_rule; [eapply user_ops_leave_camera_alone_on_web; eassumption|].
    exact Hw.
  - destruct Hw as (Hw1 & Hw2 & Hw3).
    pose proof (forallb_nth_error _ _ _ Hw3 Hn) as Hk; cbn [snd] in Hk.
    apply negb_true_iff in Hk.
    apply exec_keeps_web_rule; [eapply later_ops_leave_camera_alone; eassumption|].
    unfold web_rule, answered; cbn [state calls inflight].
    auto using forallb_remove_nth.
Qed.

(** ** What follows from the three rules *)

Lemma nothing_happens_without_permission_and_call w :
  hasMediaPermission (state w) <> Some true -> inflight w = [] ->
  forall e, step e w = None.
Proof.
  intros Hperm Hin e.
  destruct (is_user_event e) eqn:He.
  - apply no_control_without_permission; assumption.
  - destruct e; try discriminate He.
    unfold step; rewrite Hin. destruct i; reflexivity.
Qed.

(** X1. Until the media permission is granted, the gallery does not
    exist: in every reachable state without it the list is empty, the
    screen and selection have their initial values, the only platform
    calls made so far are the permission query and request (no photo was
    listed, deleted or shared), and no control can fire. *)
Theorem gallery_waits_for_media_permission platform w :
  reachable platform w ->
  hasMediaPermission (state w) <> Some true ->
  assets (state w) = []
  /\ screen (state w) = gallery
  /\ selectedAsset (state w) = None
  /\ isLoadingAssets (state w) = false
  /\ forallb is_permission_call (calls w) = true
  /\ (forall e, is_user_event e = true -> step e w = None).
Proof.
  intros Hreach Hperm.
  pose proof (reachable_permission_rule Hreach) as Hrule.
  unfold permission_rule in Hrule.
  assert (Hwait : awaiting_permission w)
    by (destruct (hasMediaPermission (state w)) as [[|]|]; [congruence | | ]; exact Hrule).
  destruct Hwait as (Hcalls & [(Hst & _) | (Hst & _)]); rewrite Hst; cbn;
    repeat split; auto using no_control_without_permission.
Qed.

Lemma gallery_waits_for_media_permission_witness :
  assets (state (init ios)) = []
  /\ forallb is_permission_call (calls (init ios)) = true
  /\ step pressRefresh (init ios) = None.
Proof.
  destruct (@gallery_waits_for_media_permission ios (init ios)
              (reachable_init ios) ltac:(discriminate))
    as (Ha & _ & _ & _ & Hc & Hno).
  split; [exact Ha|]. split; [exact Hc|]. apply Hno. reflexivity.
Defined.

Lemma step_keeps_decided_permission platform w b e w' :
  reachable platform w -> hasMediaPermission (state w) = Some b ->
  step e w = Some w' -> hasMediaPermission (state w') = Some b.
Proof.
  intros Hreach Hperm Hstep.
  pose proof (reachable_permission_rule Hreach) as Hrule.
  unfold permission_rule in Hrule; rewrite Hperm in Hrule.
  destruct b.
  - destruct (step_inv _ _ Hstep)
      as [(ops & _ & Hh & ->) | (i & r & c & k & ops & -> & Hn & Hr & ->)].
    + destruct (user_ops_leave_permission _ _ Hh) as (Hsame & _).
      destruct (commit_keeping_permission ops w Hsame) as (slot & requests & -> & _).
      cbn [state with_cameraScreen hasMediaPermission]. rewrite Hsame. exact Hperm.
    + pose proof (forallb_nth_error _ _ _ Hrule Hn) as Hk; cbn [snd] in Hk.
      apply negb_true_iff in Hk.
      destruct (later_ops_leave_permission _ _ Hk Hr) as (Hsame & _).
      destruct (commit_keeping_permission ops (answered i w) Hsame)
        as (slot & requests & -> & _).
      cbn [state answered with_cameraScreen hasMediaPermission]. rewrite Hsame.
      exact Hperm.
  - destruct Hrule as (_ & [(Hst & _) | (_ & Hin)]).
    + rewrite Hst in Hperm; discriminate Hperm.
    + rewrite nothing_happens_without_permission_and_call in Hstep;
        [discriminate Hstep | congruence | exact Hin].
Qed.

(** X2. The media permission is decided once.  From a reachable state in
    which [hasMediaPermission] is [true] or [false], no user action and no
    platform answer changes it again; and once it is [false] nothing can
    happen at all any more: no control is rendered and no call is
    outstanding, so the permission is never asked for again. *)
Theorem media_permission_is_decided_once platform w b :
  reachable platform w ->
  hasMediaPermission (state w) = Some b ->
  (forall es w', run es w = Some w' -> hasMediaPermission (state w') = Some b)
  /\ (b = false -> forall e, step e w = None).
Proof.
  intros Hreach Hperm; split.
  - intros es; revert w Hreach Hperm.
    induction es as [|e es IH]; simpl; intros w Hreach Hperm w' Hrun.
    + congruence.
    + destruct (step e w) as [w1|] eqn:Hstep; [|discriminate Hrun].
      apply (IH w1); auto.
      * eapply reachable_step; eassumption.
      * eapply step_keeps_decided_permission; eassumption.
  - intros -> e.
    pose proof (reachable_permission_rule Hreach) as Hrule.
    unfold permission_rule in Hrule; rewrite Hperm in Hrule.
    destruct Hrule as (_ & [(Hst & _) | (_ & Hin)]).
    + rewrite Hst in Hperm; discriminate Hperm.
    + apply nothing_happens_without_permission_and_call; [congruence | exact Hin].
Qed.

Lemma media_permission_is_decided_once_witness :
  hasMediaPermission
    (state (world_after ios
              (photo_3_open
               ++ [pressDelete; settle 0 (reply_void (fulfilled tt)); pressRefresh])))
  = Some true.
Proof.
  refine (proj1 (@media_permission_is_decided_once ios
                   (world_after ios first_load_started) true _ eq_refl)
            (skipn 1 (photo_3_open
                      ++ [pressDelete; settle 0 (reply_void (fulfilled tt)); pressRefresh]))
            _ _).
  - apply world_after_reachable with (w := world_after ios first_load_started).
    vm_compute; reflexivity.
  - vm_compute; reflexivity.
Defined.

(** X3. The permission calls at mount are awaited outside any [try]: if
    the query rejects, or the request that follows a query not answered
    [granted] rejects, the callback just ends.  [hasMediaPermission] stays
    [null], the application keeps rendering the checking screen, no
    notice is raised, and nothing can happen any more. *)
Theorem rejected_permission_call_leaves_app_checking platform :
  (exists w,
     step (settle 0 (reply_permission rejected)) (init platform) = Some w
     /\ render (state w) = view_checking
     /\ alerts w = []
     /\ forall e, step e w = None)
  /\ (forall current,
        MediaLibrary.status current <> MediaLibrary.status_granted ->
        exists w,
          run [settle 0 (reply_permission (fulfilled current));
               settle 0 (reply_permission rejected)] (init platform) = Some w
          /\ render (state w) = view_checking
          /\ alerts w = []
          /\ forall e, step e w = None).
Proof.
  split.
  - eexists; split; [reflexivity|]. repeat split.
    apply nothing_happens_without_permission_and_call; [discriminate | reflexivity].
  - intros [st g] Hst; cbn in Hst.
    destruct st; [contradiction| |];
      (eexists; split; [reflexivity|]; repeat split;
       apply nothing_happens_without_permission_and_call; [discriminate | reflexivity]).
Qed.

Lemma rejected_permission_call_leaves_app_checking_witness :
  exists w,
    run [settle 0 (reply_permission (fulfilled permission_denied));
         settle 0 (reply_permission rejected)] (init android) = Some w
    /\ render (state w) = view_checking.
Proof.
  destruct (proj2 (rejected_permission_call_leaves_app_checking android)
              permission_denied ltac:(discriminate))
    as (w & Hrun & Hview & _).
  exists w; split; assumption.
Defined.

(** X4. The first page is asked for exactly when the media permission
    is granted.  If the query answers [granted], [hasMediaPermission]
    becomes [true] and the same commit raises the in-flight flag and
    requests the first page; otherwise the permission is requested, and
    the answer's [granted] field decides: [true] starts the first load in
    the same way, [false] starts nothing and leaves the permission
    screen. *)
Theorem first_load_follows_permission platform :
  (forall current,
     MediaLibrary.status current = MediaLibrary.status_granted ->
     exists w,
       step (settle 0 (reply_permission (fulfilled current))) (init platform) = Some w
       /\ hasMediaPermission (state w) = Some true
       /\ isLoadingAssets (state w) = true
       /\ calls w = [getPermissionsAsync; getAssetsAsync 60 None]
       /\ inflight w = [(getAssetsAsync 60 None, k_loadInitialAssets then_nothing)])
  /\ (forall current result,
        MediaLibrary.status current <> MediaLibrary.status_granted ->
        exists w,
          run [settle 0 (reply_permission (fulfilled current));
               settle 0 (reply_permission (fulfilled result))] (init platform) = Some w
          /\ hasMediaPermission (state w) = Some (MediaLibrary.granted result)
          /\ isLoadingAssets (state w) = MediaLibrary.granted result
          /\ calls w
             = [getPermissionsAsync; requestPermissionsAsync]
               ++ (if MediaLibrary.granted result
                   then [getAssetsAsync 60 None] else [])
          /\ inflight w
             = (if MediaLibrary.granted result
                then [(getAssetsAsync 60 None, k_loadInitialAssets then_nothing)]
                else [])
          /\ render (state w)
             = (if MediaLibrary.granted result
                then view_gallery true else view_permissionNeeded)).
Proof.
  split.
  - intros [st g] Hst; cbn in Hst; subst st.
    eexists; split; [reflexivity|]. cbn; auto.
  - intros [st g] [st' g'] Hst; cbn in Hst.
    destruct st; [contradiction| |]; destruct g';
      (eexists; split; [reflexivity|]; cbn; auto 10).
Qed.

Lemma first_load_follows_permission_witness :
  exists w,
    run [settle 0 (reply_permission (fulfilled permission_denied));
         settle 0 (reply_permission (fulfilled permission_granted))] (init ios) = Some w
    /\ calls w = [getPermissionsAsync; requestPermissionsAsync; getAssetsAsync 60 None].
Proof.
  destruct (proj2 (first_load_follows_permission ios)
              permission_denied permission_granted ltac:(discriminate))
    as (w & Hrun & _ & _ & Hcalls & _).
  exists w; split; assumption.
Defined.

(** X5. The in-flight flag is never up on its own: in every reachable
    state with [isLoadingAssets] set, a [getAssetsAsync] call is
    outstanding whose answer, page or failure, will lower the flag. *)
Theorem loading_flag_has_outstanding_request platform w :
  reachable platform w ->
  isLoadingAssets (state w) = true ->
  exists i first after k,
    nth_error (inflight w) i = Some (getAssetsAsync first after, k)
    /\ is_page_kont k = true
    /\ forall outcome,
         exists w', step (settle i (reply_page outcome)) w = Some w'
                    /\ isLoadingAssets (state w') = false.
Proof.
  intros Hreach Hflag.
  assert (Hrule : loading_rule w).
  { clear Hflag. induction Hreach as [|w e w' _ IH Hstep].
    - unfold loading_rule; cbn; discriminate.
    - eapply step_keeps_loading_rule; eassumption. }
  apply Hrule in Hflag. apply existsb_exists in Hflag.
  destruct Hflag as ([c k] & Hin & Hpage).
  unfold is_page_await in Hpage; cbn [fst snd] in Hpage.
  destruct c; try discriminate Hpage.
  apply In_nth_error in Hin; destruct Hin as (i & Hi).
  exists i, first, after, k. repeat split; auto.
  intros outcome.
  assert (Hres : exists ops, resume k (reply_page outcome) = Some ops)
    by (destruct k; try discriminate Hpage; cbn; eauto).
  destruct Hres as (ops & Hres).
  eexists; split; [eapply step_settle; eassumption|].
  destruct (page_answer_lowers_flag _ _ Hpage Hres) as (Hlow & Hsame & _).
  destruct (commit_keeping_permission ops (answered i w) Hsame)
    as (slot & requests & -> & _).
  cbn [state with_cameraScreen isLoadingAssets]. apply Hlow.
Qed.

Lemma loading_flag_has_outstanding_request_witness :
  isLoadingAssets (state (world_after ios first_load_started)) = true
  /\ exists i first after k,
       nth_error (inflight (world_after ios first_load_started)) i
       = Some (getAssetsAsync first after, k).
Proof.
  split; [reflexivity|].
  destruct (@loading_flag_has_outstanding_request ios
              (world_after ios first_load_started))
    as (i & first & after & k & Hn & _).
  - apply world_after_reachable with (w := world_after ios first_load_started).
    vm_compute; reflexivity.
  - reflexivity.
  - exists i, first, after, k. exact Hn.
Defined.

(** X6. On the web the camera is out of reach: in every state reachable
    there the screen is not the camera, the camera screen is not rendered,
    and no camera permission, capture or save call has been made. *)
Theorem camera_is_never_shown_on_web w :
  reachable web w ->
  screen (state w) <> camera
  /\ render (state w) <> view_camera
  /\ forallb (fun c => negb (is_camera_call c)) (calls w) = true.
Proof.
  intros Hreach.
  assert (Hrule : web_rule w).
  { pose proof (reachable_os Hreach) as Hos.
    induction Hreach as [|w e w' Hreach IH Hstep].
    - unfold web_rule; cbn; repeat split; discriminate.
    - eapply step_keeps_web_rule; [apply (reachable_os Hreach) | exact Hstep |].
      apply IH. apply (reachable_os Hreach). }
  destruct Hrule as (Hscr & Hcalls & _).
  repeat split; auto.
  unfold render.
  destruct (hasMediaPermission (state w)) as [[|]|]; try discriminate.
  destruct (screen (state w)); try discriminate; [contradiction|].
  destruct (selectedAsset (state w)); discriminate.
Qed.

Lemma camera_is_never_shown_on_web_witness :
  screen (state (world_after web (first_page_loaded ++ [pressCamera]))) <> camera.
Proof.
  apply (@camera_is_never_shown_on_web
           (world_after web (first_page_loaded ++ [pressCamera]))).
  apply world_after_reachable
    with (w := world_after web (first_page_loaded ++ [pressCamera])).
  vm_compute; reflexivity.
Defined.

(** ** Entering the viewer *)

Lemma render_gallery s b :
  render s = view_gallery b -> hasMediaPermission s = Some true /\ screen s = gallery.
Proof.
  unfold render.
  destruct (hasMediaPermission s) as [[|]|]; try discriminate.
  destruct (screen s); try discriminate; auto.
  destruct (selectedAsset s); discriminate.
Qed.

(** X7. The viewer is entered in one way only.  Whatever step takes the
    application from another screen to the viewer is the press of a
    thumbnail, made in the gallery on a photo of the current list, and the
    selection after it is that photo; no platform answer and no other
    control opens the viewer. *)
Theorem viewer_is_entered_by_thumbnail_only e w w' :
  step e w = Some w' ->
  screen (state w) <> viewer ->
  screen (state w') = viewer ->
  exists item,
    e = pressThumbnail item
    /\ In item (assets (state w))
    /\ screen (state w) = gallery
    /\ selectedAsset (state w') = Some item.
Proof.
  intros Hstep Hnot Hviewer.
  destruct (step_inv _ _ Hstep)
    as [(ops & _ & Hh & ->) | (i & r & c & k & ops & -> & Hn & Hr & ->)];
    [destruct (commit_navigation ops w) as (Hscr & Hsel & _)
    |destruct (commit_navigation ops (answered i w)) as (Hscr & Hsel & _)];
    rewrite Hscr in Hviewer; rewrite ?Hsel; clear Hscr Hsel Hstep.
  - destruct e;
      try (exfalso; handler_cases Hh; revert Hviewer; unfold_callbacks;
           split_conditions; simpl; congruence).
    unfold handler in Hh.
    destruct (render (state w)) as [| |[|]| | |] eqn:Hrender; try discriminate Hh.
    destruct (in_dec Asset_eq_dec item (assets (state w))) as [Hin|];
      [|discriminate Hh].
    injection Hh as <-.
    exists item; destruct (render_gallery _ Hrender); simpl; auto.
  - exfalso; revert Hviewer; cbn [answered state].
    resume_cases Hr; unfold_callbacks; split_conditions; simpl; congruence.
Qed.

Lemma viewer_is_entered_by_thumbnail_only_witness :
  exists item,
    pressThumbnail (photo "3") = pressThumbnail item
    /\ In item (assets (state (world_after ios both_pages_loaded))).
Proof.
  destruct (@viewer_is_entered_by_thumbnail_only
              (pressThumbnail (photo "3"))
              (world_after ios both_pages_loaded)
              (world_after ios photo_3_open))
    as (item & He & Hin & _).
  - vm_compute; reflexivity.
  - discriminate.
  - reflexivity.
  - exists item; split; assumption.
Defined.

(** X8. Selecting a photo and going back is a round trip: with the list
    on screen, nothing selected, and [item] in the list, pressing its
    thumbnail and then Back gives the very state the application was in. *)
Theorem select_then_back_is_identity w item :
  render (state w) = view_gallery true ->
  In item (assets (state w)) ->
  selectedAsset (state w) = None ->
  run [pressThumbnail item; pressBack] w = Some w.
Proof.
  intros Hrender Hin Hnone.
  destruct (render_gallery _ Hrender) as (Hperm & Hscr).
  unfold run, step at 1, handler; rewrite Hrender.
  destruct (in_dec Asset_eq_dec item (assets (state w))) as [_|Hout];
    [|contradiction].
  destruct w as [p [hmp a ec hn il sc sel cp slot] al cl infl];
    cbn [state hasMediaPermission screen selectedAsset assets] in *; subst.
  rewrite commit_parts_full, permissionEffect_same by reflexivity.
  rewrite camera_requests_off by (simpl; discriminate).
  unfold reconciled_slot; rewrite !cameraScreen_rendered_eq.
  simpl. rewrite !app_nil_r.
  rewrite commit_parts_full, permissionEffect_same by reflexivity.
  rewrite camera_requests_off by (simpl; discriminate).
  unfold reconciled_slot; rewrite !cameraScreen_rendered_eq.
  simpl. rewrite !app_nil_r. reflexivity.
Qed.

Lemma select_then_back_is_identity_witness :
  run [pressThumbnail (photo "2"); pressBack] (world_after ios both_pages_loaded)
  = Some (world_after ios both_pages_loaded).
Proof.
  apply (@select_then_back_is_identity (world_after ios both_pages_loaded) (photo "2")).
  - reflexivity.
  - right; left; reflexivity.
  - reflexivity.
Defined.
(** ** Calls and their answers, in a row *)

(** Answering the call made last, in a world given by its parts. *)
Lemma settle_last_parts p s al cl infl c k r ops :
  resume k r = Some ops ->
  hasMediaPermission (run_setters ops s) = hasMediaPermission s ->
  screen (run_setters ops s) = screen s ->
  (forall i, existsb (writes_permission_of i) ops = false) ->
  step (settle (List.length infl) r) (mkWorld p s al cl (infl ++ [(c, k)]))
  = Some (mkWorld p (run_setters ops s) (al ++ alerted ops)
            (cl ++ map fst (awaited ops)) (infl ++ awaited ops)).
Proof.
  intros Hres Hsame Hscr Hhook.
  rewrite (@step_settle _ (List.length infl) c k r ops);
    [|apply nth_error_last|exact Hres].
  unfold answered; cbn [os state alerts calls inflight].
  rewrite remove_nth_last, commit_parts by assumption. reflexivity.
Qed.

(** A world, its parts named, for the statements below. *)
Ltac parts w :=
  let p := fresh "p" in let s := fresh "s" in let al := fresh "al" in
  let cl := fresh "cl" in let infl := fresh "infl" in
  destruct w as [p s al cl infl];
  cbn [os state alerts calls inflight] in *.

(** X9. Sharing reads the platform first and never touches a cell.  With
    a photo selected, [onShareSelected] asks whether sharing is
    available.  If not, the notice titled [Unavailable] is raised and no
    share is requested; if so, the share sheet is requested with the
    content locator of the photo that was selected when Share was pressed,
    and no notice is raised.  If either call fails, the notice titled
    [Share failed] is raised.  In every case the cells are as before. *)
Theorem share_checks_availability_first w selected :
  selectedAsset (state w) = Some selected ->
  let w1 := commit (onShareSelected (state w)) w in
  let n := List.length (inflight w) in
  state w1 = state w
  /\ calls w1 = calls w ++ [isAvailableAsync]
  /\ (exists w2,
        step (settle n (reply_bool (fulfilled false))) w1 = Some w2
        /\ state w2 = state w /\ calls w2 = calls w1 /\ inflight w2 = inflight w
        /\ alerts w2
           = alerts w ++ [("Unavailable", "Sharing is not available on this platform.")])
  /\ (exists w2,
        step (settle n (reply_bool (fulfilled true))) w1 = Some w2
        /\ state w2 = state w /\ alerts w2 = alerts w
        /\ calls w2 = calls w1 ++ [shareAsync (MediaLibrary.uri selected)]
        /\ (exists w3,
              step (settle n (reply_void (fulfilled tt))) w2 = Some w3
              /\ state w3 = state w /\ alerts w3 = alerts w /\ inflight w3 = inflight w)
        /\ (exists w3,
              step (settle n (reply_void rejected)) w2 = Some w3
              /\ state w3 = state w /\ inflight w3 = inflight w
              /\ alerts w3 = alerts w ++ [("Share failed", "Unable to share this photo.")]))
  /\ (exists w2,
        step (settle n (reply_bool rejected)) w1 = Some w2
        /\ state w2 = state w /\ calls w2 = calls w1 /\ inflight w2 = inflight w
        /\ alerts w2 = alerts w ++ [("Share failed", "Unable to share this photo.")]).
Proof.
  intros Hsel w1 n; subst w1 n.
  unfold onShareSelected; rewrite Hsel.
  rewrite commit_parts by (first [reflexivity | intros; reflexivity]).
  parts w; simpl run_setters; simpl awaited; simpl alerted; simpl map;
    rewrite ?app_nil_r.
  split; [reflexivity|]. split; [reflexivity|].
  split; [|split].
  - eexists; split; [apply settle_last_parts; first [reflexivity | intros; reflexivity]|].
    simpl; rewrite ?app_nil_r; auto.
  - eexists; split; [apply settle_last_parts; first [reflexivity | intros; reflexivity]|].
    cbn [state alerts calls inflight].
    split; [reflexivity|]. split; [simpl; apply app_nil_r|].
    split; [reflexivity|].
    split; (eexists; split; [apply settle_last_parts; first [reflexivity | intros; reflexivity]|];
            simpl; rewrite ?app_nil_r; auto).
  - eexists; split; [apply settle_last_parts; first [reflexivity | intros; reflexivity]|].
    simpl; rewrite ?app_nil_r; auto.
Qed.

Lemma share_checks_availability_first_witness :
  selectedAsset (state (world_after ios photo_3_open)) = Some (photo "3")
  /\ calls (commit (onShareSelected (state (world_after ios photo_3_open)))
             (world_after ios photo_3_open))
     = calls (world_after ios photo_3_open) ++ [isAvailableAsync].
Proof.
  split; [reflexivity|].
  exact (proj1 (proj2 (@share_checks_availability_first
                         (world_after ios photo_3_open) (photo "3") eq_refl))).
Defined.

(** X10. A failed [loadMoreAssets] can be retried as it was.  Past the
    guard, when the page request fails, the cursor and has-more are kept
    and the in-flight flag is lowered, so that the next call passes the
    guard again and asks for the same page, with the same cursor. *)
Theorem failed_loadMore_can_be_retried w :
  hasNextPage (state w) = true -> isLoadingAssets (state w) = false ->
  exists w2,
    step (settle (List.length (inflight w)) (reply_page rejected))
         (commit (loadMoreAssets (state w)) w) = Some w2
    /\ state w2 = state w
    /\ inflight w2 = inflight w
    /\ calls (commit (loadMoreAssets (state w2)) w2)
       = calls w ++ [getAssetsAsync 60 (endCursor (state w));
                     getAssetsAsync 60 (endCursor (state w))].
Proof.
  intros Hmore Hidle.
  unfold loadMoreAssets at 1; rewrite Hmore, Hidle; cbn [negb orb].
  rewrite commit_parts by (first [reflexivity | intros; reflexivity]).
  parts w; simpl run_setters; simpl awaited; simpl alerted; simpl map;
    rewrite ?app_nil_r.
  eexists; split; [apply settle_last_parts; first [reflexivity | intros; reflexivity]|].
  destruct s as [hmp a ec hn il sc sel cp].
  cbn [hasNextPage isLoadingAssets] in Hmore, Hidle; subst hn il.
  simpl; rewrite ?app_nil_r.
  split; [reflexivity|]. split; [reflexivity|].
  rewrite commit_parts by (first [reflexivity | intros; reflexivity]).
  simpl; rewrite <- app_assoc; reflexivity.
Qed.

Lemma failed_loadMore_can_be_retried_witness :
  exists w2,
    step (settle (List.length (inflight (world_after ios first_page_loaded)))
            (reply_page rejected))
         (commit (loadMoreAssets (state (world_after ios first_page_loaded)))
                 (world_after ios first_page_loaded)) = Some w2
    /\ state w2 = state (world_after ios first_page_loaded).
Proof.
  destruct (@failed_loadMore_can_be_retried
              (world_after ios first_page_loaded) eq_refl eq_refl)
    as (w2 & Hstep & Hst & _).
  exists w2; split; assumption.
Defined.

(** X11. Pages chain through the stored cursor.  Once a page has
    answered [loadInitialAssets] or [loadMoreAssets], the next
    [loadMoreAssets] asks for what follows that page's cursor if the page
    said there is more, and is dropped if it said there is not; a page
    that says there is more but carries no cursor makes the next call ask
    for the first page again. *)
Theorem next_page_follows_last_cursor w t result :
  let after_initial := commit (loadInitialAssets_resume t (fulfilled result)) w in
  let after_more := commit (loadMoreAssets_resume (fulfilled result)) w in
  (MediaLibrary.hasNextPage result = true ->
     calls (commit (loadMoreAssets (state after_initial)) after_initial)
     = calls w ++ [getAssetsAsync 60 (MediaLibrary.endCursor result)]
     /\ calls (commit (loadMoreAssets (state after_more)) after_more)
        = calls w ++ [getAssetsAsync 60 (MediaLibrary.endCursor result)])
  /\ (MediaLibrary.hasNextPage result = false ->
      commit (loadMoreAssets (state after_initial)) after_initial = after_initial
      /\ commit (loadMoreAssets (state after_more)) after_more = after_more).
Proof.
  cbv zeta.
  assert (Hloaded :
    forall v,
      hasNextPage (state v) = MediaLibrary.hasNextPage result ->
      isLoadingAssets (state v) = false ->
      endCursor (state v) = MediaLibrary.endCursor result ->
      (MediaLibrary.hasNextPage result = true ->
       calls (commit (loadMoreAssets (state v)) v)
       = calls v ++ [getAssetsAsync 60 (MediaLibrary.endCursor result)])
      /\ (MediaLibrary.hasNextPage result = false ->
          commit (loadMoreAssets (state v)) v = v)).
  { intros v Hn Hl Hc; unfold loadMoreAssets; rewrite Hn, Hl, Hc.
    split; intros ->; cbn [negb orb].
    - rewrite commit_parts by (first [reflexivity | intros; reflexivity]).
      reflexivity.
    - apply commit_nil. }
  destruct (loadInitial_fulfilled t result w) as (_ & Hc & Hn & Hl & _).
  destruct (loadMore_fulfilled result w) as (_ & Hc' & Hn' & Hl' & _).
  assert (Hcalls : calls (commit (loadInitialAssets_resume t (fulfilled result)) w)
                   = calls w).
  { destruct t; run_segment w; reflexivity. }
  assert (Hcalls' : calls (commit (loadMoreAssets_resume (fulfilled result)) w)
                    = calls w).
  { run_segment w; reflexivity. }
  destruct (Hloaded _ Hn Hl Hc) as (Hyes & Hno).
  destruct (Hloaded _ Hn' Hl' Hc') as (Hyes' & Hno').
  split; intros Hmore; split; auto.
  - rewrite (Hyes Hmore), Hcalls. reflexivity.
  - rewrite (Hyes' Hmore), Hcalls'. reflexivity.
Qed.

Lemma filter_length_count selected l :
  List.length (filter (id_differs selected) l)
  + count_occ string_dec (map MediaLibrary.id l) (MediaLibrary.id selected)
  = List.length l.
Proof.
  induction l as [|a l IH]; simpl; auto.
  destruct (string_dec (MediaLibrary.id a) (MediaLibrary.id selected)) as [Heq|Hne];
    destruct (id_differs selected a) eqn:Hd; simpl.
  - apply (id_differs_false selected) in Heq. congruence.
  - lia.
  - lia.
  - apply id_differs_false in Hd. contradiction.
Qed.

Lemma filter_keeps_NoDup selected l :
  NoDup (map MediaLibrary.id l) ->
  NoDup (map MediaLibrary.id (filter (id_differs selected) l)).
Proof.
  induction l as [|a l IH]; simpl; auto.
  intros Hnd; inversion Hnd as [|x xs Hnotin Hrest]; subst.
  destruct (id_differs selected a); simpl; auto.
  constructor; auto.
  intros Hin; apply Hnotin.
  apply in_map_iff in Hin; destruct Hin as (b & Hb & Hbin).
  apply filter_In in Hbin; destruct Hbin as (Hbin & _).
  apply in_map_iff; eauto.
Qed.

(** X12. Delete goes by identifier, whatever the list holds by then.
    When the platform has deleted the photo, every entry of the list with
    its identifier is removed and every other entry is kept, in order: the
    list is shorter by the number of entries that had the identifier
    (none, if a reload has dropped the photo meanwhile), and a list
    without duplicate identifiers stays one.  The selection is cleared
    and the gallery shown even if another photo has been opened since. *)
Theorem delete_goes_by_identifier selected w :
  let w' := commit (onDeleteSelected_resume selected (fulfilled tt)) w in
  (forall a, In a (assets (state w'))
             <-> In a (assets (state w))
                 /\ MediaLibrary.id a <> MediaLibrary.id selected)
  /\ List.length (assets (state w'))
     + count_occ string_dec (map MediaLibrary.id (assets (state w)))
         (MediaLibrary.id selected)
     = List.length (assets (state w))
  /\ (NoDup (map MediaLibrary.id (assets (state w))) ->
      NoDup (map MediaLibrary.id (assets (state w'))))
  /\ selectedAsset (state w') = None
  /\ screen (state w') = gallery.
Proof.
  cbv zeta.
  destruct (delete_fulfilled selected w) as (Ha & Hsel & Hscr & _).
  rewrite Ha.
  split; [|split; [|split; [|split; assumption]]].
  - intros a; rewrite filter_In; split; intros (Hin & Hd); split; auto.
    + intros Heq. apply id_differs_false in Heq. congruence.
    + destruct (id_differs selected a) eqn:Hd'; auto.
      apply id_differs_false in Hd'. contradiction.
  - apply filter_length_count.
  - apply filter_keeps_NoDup.
Qed.

Lemma next_page_follows_last_cursor_witness :
  calls (commit (loadMoreAssets
                   (state (commit (loadInitialAssets_resume then_nothing (fulfilled page_123))
                             (world_after ios first_load_started))))
           (commit (loadInitialAssets_resume then_nothing (fulfilled page_123))
              (world_after ios first_load_started)))
  = calls (world_after ios first_load_started) ++ [getAssetsAsync 60 (Some "c1")].
Proof.
  exact (proj1 (proj1 (@next_page_follows_last_cursor
                         (world_after ios first_load_started) then_nothing page_123)
                  eq_refl)).
Defined.

Lemma delete_goes_by_identifier_witness :
  NoDup (map MediaLibrary.id
           (assets (state (commit (onDeleteSelected_resume (photo "3") (fulfilled tt))
                             (world_after ios photo_3_open))))).
Proof.
  apply (proj1 (proj2 (proj2 (@delete_goes_by_identifier
                                (photo "3") (world_after ios photo_3_open))))).
  vm_compute.
  repeat (constructor; [simpl; intuition discriminate|]). constructor.
Defined.

(** ** The camera *)

Lemma render_camera s :
  render s = view_camera -> hasMediaPermission s = Some true /\ screen s = camera.
Proof.
  unfold render.
  destruct (hasMediaPermission s) as [[|]|]; try discriminate.
  destruct (screen s); try discriminate; auto.
  destruct (selectedAsset s); discriminate.
Qed.

Lemma render_CameraScreen_live platform cs :
  render_CameraScreen platform cs = camera_live ->
  OS_eqb platform web = false /\ granted_opt (permission cs) = true.
Proof.
  unfold render_CameraScreen.
  destruct (OS_eqb platform web); try discriminate.
  destruct (granted_opt (permission cs)); try discriminate; auto.
Qed.

(** Answering the call made last, whatever the segment that follows. *)
Lemma settle_last_full p s al cl infl c k r ops :
  resume k r = Some ops ->
  step (settle (List.length infl) r) (mkWorld p s al cl (infl ++ [(c, k)]))
  = Some (commit ops (mkWorld p s al cl infl)).
Proof.
  intros Hres.
  rewrite (@step_settle _ (List.length infl) c k r ops);
    [|apply nth_error_last|exact Hres].
  unfold answered; cbn [os state alerts calls inflight].
  rewrite remove_nth_last. reflexivity.
Qed.

(** The capture button of a live [CameraScreen] that is not saving asks
    the camera for a picture and touches no cell. *)
Lemma capture_started w cs :
  render (state w) = view_camera ->
  mounted (cameraScreen (state w)) = Some cs ->
  render_CameraScreen (os w) cs = camera_live ->
  isSaving cs = false ->
  step pressCapture w
  = Some (mkWorld (os w) (state w) (alerts w) (calls w ++ [takePictureAsync])
            (inflight w ++ [(takePictureAsync, k_onTakeShot_takePicture (instance cs))])).
Proof.
  intros Hview Hm Hlive Hsav.
  unfold step, handler, camera_handler; rewrite Hview, Hm, Hlive.
  unfold onTakeShot, cameraRef_current; rewrite Hsav, Hlive; cbn [negb].
  rewrite commit_parts by (first [reflexivity | intros; reflexivity]).
  simpl; rewrite app_nil_r; reflexivity.
Qed.

(** While a [CameraScreen] is saving, its capture button does nothing. *)
Lemma capture_dropped w cs :
  render (state w) = view_camera ->
  mounted (cameraScreen (state w)) = Some cs ->
  render_CameraScreen (os w) cs = camera_live ->
  isSaving cs = true ->
  step pressCapture w = Some w.
Proof.
  intros Hview Hm Hlive Hsav.
  unfold step, handler, camera_handler; rewrite Hview, Hm, Hlive.
  unfold onTakeShot; rewrite Hsav, commit_nil. reflexivity.
Qed.

(** Opens a world whose camera block is on screen, live and not saving. *)
Ltac open_camera w cs Hview Hm Hlive Hsav :=
  let Hos := fresh "Hos" in
  let Hg := fresh "Hg" in
  destruct (render_CameraScreen_live _ _ Hlive) as (Hos & Hg);
  destruct (render_camera _ Hview) as (? & ?);
  open_world w; subst;
  match goal with
  | c : CameraSlot |- _ => destruct c as [? ?]
  end;
  cbn [mounted created] in *; subst;
  destruct cs as [? ? ? ?]; cbn [isSaving instance permission facing] in *; subst.

(** X13. A saved shot refreshes the gallery before showing it.  While the
    camera block is on screen with its live view and is not saving, the
    capture button asks the camera for a picture.  A picture whose
    locator is not empty is saved to the library under that locator, and
    [isSaving] is raised for the time of the save: the capture button
    then does nothing.  When the save succeeds, cursor and has-more are
    reset and the first page is requested, the camera staying on screen
    meanwhile; when that request settles, the screen becomes the gallery
    and the camera block is dropped, with the fresh page as the list if
    the request succeeded, and with the old list and the notice
    [Failed to load photos.] if it failed. *)
Theorem saved_shot_refreshes_then_shows_gallery w cs uri :
  render (state w) = view_camera ->
  mounted (cameraScreen (state w)) = Some cs ->
  render_CameraScreen (os w) cs = camera_live ->
  isSaving cs = false ->
  uri <> EmptyString ->
  exists w1 w2 w3,
    step pressCapture w = Some w1
    /\ state w1 = state w
    /\ calls w1 = calls w ++ [takePictureAsync]
    /\ step (settle (List.length (inflight w)) (reply_photo (fulfilled (Some uri)))) w1
       = Some w2
    /\ calls w2 = calls w1 ++ [saveToLibraryAsync uri]
    /\ option_map isSaving (mounted (cameraScreen (state w2))) = Some true
    /\ data (state w2) = data (state w)
    /\ step pressCapture w2 = Some w2
    /\ step (settle (List.length (inflight w)) (reply_void (fulfilled tt))) w2 = Some w3
    /\ calls w3 = calls w2 ++ [getAssetsAsync 60 None]
    /\ screen (state w3) = camera
    /\ assets (state w3) = assets (state w)
    /\ endCursor (state w3) = None
    /\ hasNextPage (state w3) = true
    /\ isLoadingAssets (state w3) = true
    /\ (forall result,
          exists w4,
            step (settle (List.length (inflight w)) (reply_page (fulfilled result))) w3
            = Some w4
            /\ screen (state w4) = gallery
            /\ assets (state w4) = MediaLibrary.assets result
            /\ isLoadingAssets (state w4) = false
            /\ mounted (cameraScreen (state w4)) = None
            /\ calls w4 = calls w3
            /\ alerts w4 = alerts w)
    /\ (exists w4,
          step (settle (List.length (inflight w)) (reply_page rejected)) w3 = Some w4
          /\ screen (state w4) = gallery
          /\ assets (state w4) = assets (state w)
          /\ isLoadingAssets (state w4) = false
          /\ mounted (cameraScreen (state w4)) = None
          /\ calls w4 = calls w3
          /\ alerts w4 = alerts w ++ [("Error", "Failed to load photos.")]).
Proof.
  intros Hview Hm Hlive Hsav Huri.
  assert (Hres : onTakeShot_resume_takePicture (instance cs) (fulfilled (Some uri))
                 = [ setIsSaving (instance cs) true;
                     await (saveToLibraryAsync uri) (k_onTakeShot_save (instance cs)) ])
    by (destruct uri; [contradiction | reflexivity]).
  open_camera w cs Hview Hm Hlive Hsav.
  eexists; eexists; eexists.
  split; [eapply capture_started; [exact Hview | reflexivity | exact Hlive | reflexivity]|].
  cbn [state alerts calls inflight os instance].
  split; [reflexivity|]. split; [reflexivity|].
  split.
  { apply settle_last_parts; [cbn [resume]; rewrite Hres | ..];
      first [reflexivity | intros; reflexivity]. }
  cbn [state alerts calls inflight].
  simpl run_setters; simpl awaited; simpl alerted; simpl map; rewrite ?app_nil_r.
  unfold update_CameraScreen, update_slot; cbn [cameraScreen mounted instance created].
  rewrite Nat.eqb_refl; cbn [with_cameraScreen].
  split; [reflexivity|]. split; [reflexivity|]. split; [reflexivity|].
  split.
  { eapply capture_dropped; [reflexivity | reflexivity | | reflexivity].
    unfold render_CameraScreen; cbn [os permission]. rewrite Hos, Hg. reflexivity. }
  split; [apply settle_last_parts; first [reflexivity | intros; reflexivity]|].
  cbn [state alerts calls inflight].
  simpl run_setters; simpl awaited; simpl alerted; simpl map; rewrite ?app_nil_r.
  do 6 (split; [reflexivity|]).
  split; [intros result|].
  all: eexists; split; [apply settle_last_full; reflexivity|].
  all: rewrite commit_parts_full; cbn [state alerts calls inflight os].
  all: rewrite permissionEffect_same by reflexivity.
  all: rewrite camera_requests_off by (simpl; discriminate).
  all: simpl; rewrite ?app_nil_r; auto 10.
Qed.

Lemma saved_shot_refreshes_then_shows_gallery_witness :
  render (state (world_after ios camera_open)) = view_camera
  /\ mounted (cameraScreen (state (world_after ios camera_open)))
     = Some (mkCamera 0 false back (Some permission_granted))
  /\ exists w1 w2 w3,
       step pressCapture (world_after ios camera_open) = Some w1
       /\ state w1 = state (world_after ios camera_open)
       /\ calls w1 = calls (world_after ios camera_open) ++ [takePictureAsync]
       /\ step (settle (List.length (inflight (world_after ios camera_open)))
                  (reply_photo (fulfilled (Some "file:///cache/shot.jpg")))) w1
          = Some w2
       /\ calls w2 = calls w1 ++ [saveToLibraryAsync "file:///cache/shot.jpg"]
       /\ option_map isSaving (mounted (cameraScreen (state w2))) = Some true
       /\ data (state w2) = data (state (world_after ios camera_open))
       /\ step pressCapture w2 = Some w2
       /\ step (settle (List.length (inflight (world_after ios camera_open)))
                  (reply_void (fulfilled tt))) w2 = Some w3
       /\ calls w3 = calls w2 ++ [getAssetsAsync 60 None]
       /\ screen (state w3) = camera
       /\ assets (state w3) = assets (state (world_after ios camera_open))
       /\ endCursor (state w3) = None
       /\ hasNextPage (state w3) = true
       /\ isLoadingAssets (state w3) = true
       /\ (forall result,
             exists w4,
               step (settle (List.length (inflight (world_after ios camera_open)))
                       (reply_page (fulfilled result))) w3
               = Some w4
               /\ screen (state w4) = gallery
               /\ assets (state w4) = MediaLibrary.assets result
               /\ isLoadingAssets (state w4) = false
               /\ mounted (cameraScreen (state w4)) = None
               /\ calls w4 = calls w3
               /\ alerts w4 = alerts (world_after ios camera_open))
       /\ (exists w4,
             step (settle (List.length (inflight (world_after ios camera_open)))
                     (reply_page rejected)) w3 = Some w4
             /\ screen (state w4) = gallery
             /\ assets (state w4) = assets (state (world_after ios camera_open))
             /\ isLoadingAssets (state w4) = false
             /\ mounted (cameraScreen (state w4)) = None
             /\ calls w4 = calls w3
             /\ alerts w4
                = alerts (world_after ios camera_open)
                  ++ [("Error", "Failed to load photos.")]).
Proof.
  split; [reflexivity|]. split; [reflexivity|].
  apply (@saved_shot_refreshes_then_shows_gallery
           (world_after ios camera_open)
           (mkCamera 0 false back (Some permission_granted))
           "file:///cache/shot.jpg");
    first [reflexivity | discriminate].
Defined.

(** X14. A shot that fails leaves everything in place.  From the capture
    button of a live camera block that is not saving: if taking the
    picture fails, the notice [Failed to take photo.] is raised; if the
    picture comes without a locator, or with an empty one, nothing is
    raised and nothing is saved; if saving the picture fails, the same
    notice is raised.  In the three cases every cell, those of the
    camera block included, ends as it was (the camera stays on screen),
    no request is left outstanding and no page is requested. *)
Theorem failed_shot_changes_nothing w cs :
  render (state w) = view_camera ->
  mounted (cameraScreen (state w)) = Some cs ->
  render_CameraScreen (os w) cs = camera_live ->
  isSaving cs = false ->
  exists w1,
    step pressCapture w = Some w1
    /\ (exists w2,
          step (settle (List.length (inflight w)) (reply_photo rejected)) w1 = Some w2
          /\ state w2 = state w /\ inflight w2 = inflight w
          /\ calls w2 = calls w ++ [takePictureAsync]
          /\ alerts w2 = alerts w ++ [("Error", "Failed to take photo.")])
    /\ (forall photo_uri,
          has_uri photo_uri = false ->
          exists w2,
            step (settle (List.length (inflight w)) (reply_photo (fulfilled photo_uri))) w1
            = Some w2
            /\ state w2 = state w /\ inflight w2 = inflight w
            /\ calls w2 = calls w ++ [takePictureAsync]
            /\ alerts w2 = alerts w)
    /\ (forall uri,
          uri <> EmptyString ->
          exists w2 w3,
            step (settle (List.length (inflight w))
                    (reply_photo (fulfilled (Some uri)))) w1 = Some w2
            /\ step (settle (List.length (inflight w)) (reply_void rejected)) w2 = Some w3
            /\ state w3 = state w /\ inflight w3 = inflight w
            /\ calls w3 = calls w ++ [takePictureAsync; saveToLibraryAsync uri]
            /\ alerts w3 = alerts w ++ [("Error", "Failed to take photo.")]).
Proof.
  intros Hview Hm Hlive Hsav.
  assert (Hnone : forall photo_uri,
             has_uri photo_uri = false ->
             onTakeShot_resume_takePicture (instance cs) (fulfilled photo_uri)
             = [ setIsSaving (instance cs) false ])
    by (intros photo_uri Huri; unfold onTakeShot_resume_takePicture;
        rewrite Huri; reflexivity).
  assert (Hsome : forall uri,
             uri <> EmptyString ->
             onTakeShot_resume_takePicture (instance cs) (fulfilled (Some uri))
             = [ setIsSaving (instance cs) true;
                 await (saveToLibraryAsync uri) (k_onTakeShot_save (instance cs)) ])
    by (intros uri Huri; destruct uri; [contradiction | reflexivity]).
  open_camera w cs Hview Hm Hlive Hsav.
  eexists.
  split; [eapply capture_started; [exact Hview | reflexivity | exact Hlive | reflexivity]|].
  cbn [state alerts calls inflight os instance].
  split; [|split].
  - eexists; split; [apply settle_last_parts; first [reflexivity | intros; reflexivity]|].
    simpl; unfold update_CameraScreen, update_slot;
      cbn [cameraScreen mounted instance created].
    rewrite Nat.eqb_refl, ?app_nil_r; auto.
  - intros photo_uri Huri.
    eexists; split.
    { apply settle_last_parts; [cbn [resume]; rewrite (Hnone _ Huri) | ..];
        first [reflexivity | intros; reflexivity]. }
    simpl; unfold update_CameraScreen, update_slot;
      cbn [cameraScreen mounted instance created].
    rewrite Nat.eqb_refl, ?app_nil_r; auto.
  - intros uri Huri.
    eexists; eexists; split.
    { apply settle_last_parts; [cbn [resume]; rewrite (Hsome _ Huri) | ..];
        first [reflexivity | intros; reflexivity]. }
    split; [apply settle_last_parts; first [reflexivity | intros; reflexivity]|].
    simpl; unfold update_CameraScreen, update_slot;
      cbn [cameraScreen mounted instance created with_cameraScreen].
    rewrite !Nat.eqb_refl; cbn [cameraScreen mounted instance created with_cameraScreen].
    rewrite ?Nat.eqb_refl, ?app_nil_r, <- ?app_assoc; auto.
Qed.

Lemma failed_shot_changes_nothing_witness :
  render (state (world_after ios camera_open)) = view_camera
  /\ exists w1,
       step pressCapture (world_after ios camera_open) = Some w1
       /\ (exists w2,
             step (settle (List.length (inflight (world_after ios camera_open)))
                     (reply_photo rejected)) w1 = Some w2
             /\ state w2 = state (world_after ios camera_open)
             /\ inflight w2 = inflight (world_after ios camera_open)
             /\ calls w2 = calls (world_after ios camera_open) ++ [takePictureAsync]
             /\ alerts w2
                = alerts (world_after ios camera_open)
                  ++ [("Error", "Failed to take photo.")])
       /\ (forall photo_uri,
             has_uri photo_uri = false ->
             exists w2,
               step (settle (List.length (inflight (world_after ios camera_open)))
                       (reply_photo (fulfilled photo_uri))) w1
               = Some w2
               /\ state w2 = state (world_after ios camera_open)
               /\ inflight w2 = inflight (world_after ios camera_open)
               /\ calls w2 = calls (world_after ios camera_open) ++ [takePictureAsync]
               /\ alerts w2 = alerts (world_after ios camera_open))
       /\ (forall uri,
             uri <> EmptyString ->
             exists w2 w3,
               step (settle (List.length (inflight (world_after ios camera_open)))
                       (reply_photo (fulfilled (Some uri)))) w1 = Some w2
               /\ step (settle (List.length (inflight (world_after ios camera_open)))
                          (reply_void rejected)) w2 = Some w3
               /\ state w3 = state (world_after ios camera_open)
               /\ inflight w3 = inflight (world_after ios camera_open)
               /\ calls w3
                  = calls (world_after ios camera_open)
                    ++ [takePictureAsync; saveToLibraryAsync uri]
               /\ alerts w3
                  = alerts (world_after ios camera_open)
                    ++ [("Error", "Failed to take photo.")]).
Proof.
  split; [reflexivity|].
  apply (@failed_shot_changes_nothing
           (world_after ios camera_open)
           (mkCamera 0 false back (Some permission_granted)));
    reflexivity.
Defined.

(** ** Overlapping loads *)

(** X15. A refresh is never dropped.  [refreshAssets] does not read the
    in-flight flag: called [n] times in a row from any state, it leaves
    [n] more first-page requests outstanding, each with its own
    continuation, and the flag raised. *)
Theorem refresh_is_never_dropped n w :
  let w' := Nat.iter n (commit (refreshAssets then_nothing)) w in
  inflight w'
  = inflight w ++ repeat (getAssetsAsync 60 None, k_loadInitialAssets then_nothing) n
  /\ calls w' = calls w ++ repeat (getAssetsAsync 60 None) n
  /\ (0 < n -> isLoadingAssets (state w') = true)
  /\ assets (state w') = assets (state w).
Proof.
  cbv zeta. induction n as [|n (Hin & Hcalls & _ & Ha)]; simpl.
  - rewrite !app_nil_r. repeat split; auto. lia.
  - destruct (refresh_started then_nothing
                (Nat.iter n (commit (refreshAssets then_nothing)) w))
      as (_ & _ & Hflag & Ha' & _ & _ & Hcalls' & Hin').
    rewrite Hin', Hcalls', Hin, Hcalls, Ha', Ha, <- !app_assoc.
    rewrite <- !repeat_cons. repeat split; auto.
Qed.

Lemma refresh_is_never_dropped_witness :
  isLoadingAssets
    (state (Nat.iter 2 (commit (refreshAssets then_nothing))
              (world_after ios first_page_loaded))) = true.
Proof.
  apply (proj1 (proj2 (proj2 (@refresh_is_never_dropped 2
                                (world_after ios first_page_loaded))))).
  lia.
Defined.

(** X16. The answer to [loadMoreAssets] is appended to the list of the
    moment.  When a refresh is started while a load-more request is
    outstanding and the refresh's page arrives first, the late page is
    appended after the fresh page: the list is the fresh page followed by
    the late one, and cursor and has-more are the late page's. *)
Theorem late_page_is_appended_to_refreshed_list w i c t fresh late :
  nth_error (inflight w) i = Some (c, k_loadMoreAssets) ->
  let w1 := commit (refreshAssets t) w in
  exists w2 w3,
    step (settle (List.length (inflight w)) (reply_page (fulfilled fresh))) w1 = Some w2
    /\ assets (state w2) = MediaLibrary.assets fresh
    /\ step (settle i (reply_page (fulfilled late))) w2 = Some w3
    /\ assets (state w3) = MediaLibrary.assets fresh ++ MediaLibrary.assets late
    /\ endCursor (state w3) = MediaLibrary.endCursor late
    /\ hasNextPage (state w3) = MediaLibrary.hasNextPage late.
Proof.
  intros Hearlier w1.
  destruct (refresh_started t w) as (_ & _ & _ & _ & _ & _ & _ & Hin).
  fold w1 in Hin.
  destruct (@step_settle_last w w1 _ _ (reply_page (fulfilled fresh)) _ Hin eq_refl)
    as (Hstep & Hrest).
  destruct (loadInitial_fulfilled t fresh (answered (List.length (inflight w)) w1))
    as (Ha & _ & _ & _ & _ & Hi).
  set (w2 := commit (loadInitialAssets_resume t (fulfilled fresh))
               (answered (List.length (inflight w)) w1)) in *.
  assert (Hstill : nth_error (inflight w2) i = Some (c, k_loadMoreAssets))
    by (rewrite Hi, Hrest; exact Hearlier).
  destruct (loadMore_fulfilled late (answered i w2)) as (Ha' & Hc' & Hn' & _).
  exists w2. eexists.
  split; [exact Hstep|]. split; [exact Ha|].
  split; [exact (@step_settle w2 i c _ (reply_page (fulfilled late)) _ Hstill eq_refl)|].
  cbn [answered state] in Ha'. rewrite Ha in Ha'. auto.
Qed.

Lemma late_page_is_appended_to_refreshed_list_witness :
  nth_error (inflight (world_after ios (first_page_loaded ++ [endReached]))) 0
  = Some (getAssetsAsync 60 (Some "c1"), k_loadMoreAssets)
  /\ exists w2 w3,
       step (settle 1 (reply_page (fulfilled page_6123)))
            (commit (refreshAssets then_nothing)
               (world_after ios (first_page_loaded ++ [endReached]))) = Some w2
       /\ assets (state w2) = map photo ["6"; "1"; "2"; "3"]
       /\ step (settle 0 (reply_page (fulfilled page_45))) w2 = Some w3
       /\ assets (state w3) = map photo ["6"; "1"; "2"; "3"; "4"; "5"]
       /\ endCursor (state w3) = Some "c2"
       /\ hasNextPage (state w3) = false.
Proof.
  split; [reflexivity|].
  exact (@late_page_is_appended_to_refreshed_list
           (world_after ios (first_page_loaded ++ [endReached])) 0 _ then_nothing
           page_6123 page_45 eq_refl).
Defined.
